(** * The RocksDB recovery unit of the storage layer

    A shallow embedding of [src/mongo/db/storage/rocks/rocks_recovery_unit.cpp].
    The recovery unit is the per-operation transaction context: it buffers
    writes in a [WriteBatchWithIndex], reads through a lazily acquired
    snapshot, aggregates counter deltas, and runs registered changes on commit
    or rollback.

    The C++ methods mutate the object and talk to three collaborators: the
    store ([rocksdb::DB]), the conflict tracker ([RocksTransaction]) and the
    registered [Change] callbacks.  Here a method is a computation in a small
    state-and-failure monad over a pair of the object's fields and a [World]
    that holds the store, the shared atomic counters and the chronological
    trace of every call made to a collaborator. *)

From Stdlib Require Import ZArith Ascii String List Sorted Lia.
From stdpp Require Import base option list gmap strings fin_maps.

Local Open Scope Z_scope.

(** ** Fixed-width integers *)

(** [long long] is a 64-bit two's complement integer. *)
Definition LLONG_MIN : Z := - 2 ^ 63.
Definition LLONG_MAX : Z := 2 ^ 63 - 1.

Definition wrap64 (z : Z) : Z := (z + 2 ^ 63) mod 2 ^ 64 - 2 ^ 63.

(** [reinterpret_cast<char*>(&newValue)] with [sizeof(long long)] bytes: the
    object representation of the integer, least significant byte first on the
    little-endian targets the engine is built for. *)
Fixpoint le_bytes (n : nat) (z : Z) : string :=
  match n with
  | O => EmptyString
  | S n' => String (ascii_of_N (Z.to_N (z mod 256))) (le_bytes n' (z / 256))
  end.

Definition encode_ll (z : Z) : string := le_bytes 8 (z mod 2 ^ 64).

Fixpoint le_value (s : string) : Z :=
  match s with
  | EmptyString => 0
  | String c s' => Z.of_N (N_of_ascii c) + 256 * le_value s'
  end.

Definition decode_ll (s : string) : Z := wrap64 (le_value s).

(** ** The write batch with index (rocksdb) *)

Definition ColumnFamilyHandle := nat.
Bind Scope nat_scope with ColumnFamilyHandle.

(** The records this layer writes into a batch. *)
Inductive WriteType := kPutRecord | kDeleteRecord.

Record WriteEntry := mkEntry {
  w_type : WriteType;
  w_cf : ColumnFamilyHandle;
  w_key : string;
  w_value : string
}.

Global Instance WriteType_eq_dec : EqDecision WriteType.
Proof. solve_decision. Defined.
Global Instance WriteEntry_eq_dec : EqDecision WriteEntry.
Proof. solve_decision. Defined.

(** The index orders entries by column family, then by key under
    [BytewiseComparator()]. *)
Definition index_le (cf1 : nat) (k1 : string) (cf2 : nat) (k2 : string) : bool :=
  (cf1 <? cf2)%nat || ((cf1 =? cf2)%nat && String.leb k1 k2).

Definition same_slot (cf1 : nat) (k1 : string) (cf2 : nat) (k2 : string) : bool :=
  (cf1 =? cf2)%nat && String.eqb k1 k2.

(** The batch is built with [overwrite_key = true]: inserting a key that is
    already indexed replaces its index entry, so the index holds one entry per
    column family and key, the latest. *)
Fixpoint index_insert (e : WriteEntry) (idx : list WriteEntry) : list WriteEntry :=
  match idx with
  | [] => [e]
  | x :: rest =>
      if same_slot (w_cf e) (w_key e) (w_cf x) (w_key x) then e :: rest
      else if index_le (w_cf e) (w_key e) (w_cf x) (w_key x) then e :: x :: rest
      else x :: index_insert e rest
  end.

Record WriteBatchWithIndex := mkWBWI {
  wb_batch : list WriteEntry;   (* GetWriteBatch(): the operations, in order *)
  wb_index : list WriteEntry    (* the ordered index over them *)
}.

Definition wbwi_new : WriteBatchWithIndex := mkWBWI [] [].

Definition wbwi_add (e : WriteEntry) (wb : WriteBatchWithIndex) : WriteBatchWithIndex :=
  mkWBWI (wb_batch wb ++ [e]) (index_insert e (wb_index wb)).

Definition wbwi_Put (cf : ColumnFamilyHandle) (key value : string) :=
  wbwi_add (mkEntry kPutRecord cf key value).

Definition wbwi_Delete (cf : ColumnFamilyHandle) (key : string) :=
  wbwi_add (mkEntry kDeleteRecord cf key EmptyString).

Definition Count (wb : WriteBatchWithIndex) : nat := length (wb_batch wb).

(** [WBWIIterator::Seek]: position at the first index entry not below the
    target. *)
Fixpoint index_seek (cf : nat) (key : string) (idx : list WriteEntry) : option WriteEntry :=
  match idx with
  | [] => None
  | x :: rest =>
      if index_le cf key (w_cf x) (w_key x) then Some x else index_seek cf key rest
  end.

(** [NewIterator(columnFamily)] then [Seek(key)]: the iterator is [Valid()]
    when the entry found belongs to the iterator's column family; the result
    is [Entry()] in that case. *)
Definition wbwi_Seek (cf : ColumnFamilyHandle) (key : string)
    (wb : WriteBatchWithIndex) : option WriteEntry :=
  match index_seek cf key (wb_index wb) with
  | Some e => if (w_cf e =? cf)%nat then Some e else None
  | None => None
  end.

(** The index a batch has when it was built by [Put] and [Delete] alone. *)
Definition build_index (ops : list WriteEntry) : list WriteEntry :=
  fold_left (fun idx e => index_insert e idx) ops [].

Definition wbwi_wf (wb : WriteBatchWithIndex) : Prop :=
  wb_index wb = build_index (wb_batch wb).

(** The latest operation of a batch on a column family and key. *)
Fixpoint last_op (cf : nat) (key : string) (ops : list WriteEntry) : option WriteEntry :=
  match ops with
  | [] => None
  | e :: rest =>
      match last_op cf key rest with
      | Some e' => Some e'
      | None => if same_slot cf key (w_cf e) (w_key e) then Some e else None
      end
  end.

(** ** The store (rocksdb::DB) *)

Inductive Status := StatusOK | StatusNotFound | StatusIOError.

Definition status_ok (s : Status) : bool :=
  match s with StatusOK => true | _ => false end.

Record WriteOptions := mkWriteOptions { sync : bool; disableWAL : bool }.

(** [rocksdb::WriteOptions()]: the default constructor leaves the write-ahead
    log enabled. *)
Definition WriteOptions_default : WriteOptions := mkWriteOptions false false.

Definition set_disableWAL (b : bool) (o : WriteOptions) : WriteOptions :=
  mkWriteOptions (sync o) b.

Record Snapshot := mkSnapshot {
  snap_id : nat;
  snap_data : gmap (nat * string) string
}.

Record ReadOptions := mkReadOptions { ro_snapshot : option Snapshot }.

Record DB := mkDB {
  db_data : gmap (nat * string) string;   (* column family, key -> value *)
  db_next_snapshot : nat;                 (* handle of the next snapshot *)
  db_live : list nat;                     (* snapshots not yet released *)
  db_write_fails : bool                   (* the store rejects batches *)
}.

(** The default column family, the one a [Put] without a handle writes to. *)
Definition DefaultColumnFamily (db : DB) : ColumnFamilyHandle := 0%nat.

(** A [ColumnFamilyHandle*]: the address of a handle object and, through the
    object, the column family the handle is on ([GetID()]).  The store and the
    write batch look at the column family alone; several handle objects can be
    on one column family, and two pointers are equal when they are the same
    address. *)
Record ColumnFamilyHandlePtr := mkHandlePtr {
  address : nat;
  GetID : ColumnFamilyHandle
}.

(** [DB::DefaultColumnFamily()]: the pointer to the store's own handle on its
    default column family. *)
Definition DefaultColumnFamilyHandle (db : DB) : ColumnFamilyHandlePtr :=
  mkHandlePtr 0 (DefaultColumnFamily db).

(** [p == q] on two handle pointers. *)
Definition same_handle (p q : ColumnFamilyHandlePtr) : bool :=
  (address p =? address q)%nat.

Definition apply_entry (e : WriteEntry) (d : gmap (nat * string) string) :=
  match w_type e with
  | kPutRecord => <[(w_cf e, w_key e) := w_value e]> d
  | kDeleteRecord => delete (w_cf e, w_key e) d
  end.

Definition apply_batch (ops : list WriteEntry) (d : gmap (nat * string) string) :=
  fold_left (fun d e => apply_entry e d) ops d.

Definition DB_Write (opts : WriteOptions) (ops : list WriteEntry) (db : DB) : Status * DB :=
  if db_write_fails db then (StatusIOError, db)
  else (StatusOK,
        mkDB (apply_batch ops (db_data db)) (db_next_snapshot db) (db_live db)
             (db_write_fails db)).

Definition DB_GetSnapshot (db : DB) : Snapshot * DB :=
  (mkSnapshot (db_next_snapshot db) (db_data db),
   mkDB (db_data db) (S (db_next_snapshot db)) (db_next_snapshot db :: db_live db)
        (db_write_fails db)).

Definition DB_ReleaseSnapshot (s : Snapshot) (db : DB) : DB :=
  mkDB (db_data db) (db_next_snapshot db)
       (filter (fun i => i ≠ snap_id s) (db_live db)) (db_write_fails db).

Definition DB_view (options : ReadOptions) (db : DB) : gmap (nat * string) string :=
  match ro_snapshot options with
  | Some s => snap_data s
  | None => db_data db
  end.

(** [DB::Get] writes [*value] only when the key is found. *)
Definition lookup_result (o : option string) : Status * option string :=
  match o with
  | Some v => (StatusOK, Some v)
  | None => (StatusNotFound, None)
  end.

Definition DB_Get (options : ReadOptions) (cf : ColumnFamilyHandle) (key : string)
    (db : DB) : Status * option string :=
  lookup_result (DB_view options db !! (cf, key)).

(** An iterator is described by what it ranges over: a view of one column
    family of the store, possibly under the overlay of a write batch. *)
Inductive Iterator :=
| BaseIterator (view : gmap (nat * string) string) (cf : ColumnFamilyHandle)
| IteratorWithBase (wb : WriteBatchWithIndex) (cf : ColumnFamilyHandle) (base : Iterator).

Definition DB_NewIterator (options : ReadOptions) (cf : ColumnFamilyHandle) (db : DB) :=
  BaseIterator (DB_view options db) cf.

(** ** The world outside the recovery unit *)

Definition Change := nat.     (* a registered Change object *)
Definition CounterRef := nat. (* the address of a std::atomic<long long> *)
Bind Scope nat_scope with Change.
Bind Scope nat_scope with CounterRef.

Inductive Event :=
| EvRecordSnapshotId                       (* _transaction.recordSnapshotId() *)
| EvTxnCommit                              (* _transaction.commit() *)
| EvTxnAbort                               (* _transaction.abort() *)
| EvGetSnapshot (id : nat)                 (* _db->GetSnapshot() *)
| EvReleaseSnapshot (id : nat)             (* _db->ReleaseSnapshot() *)
| EvWrite (opts : WriteOptions) (ops : list WriteEntry) (st : Status)  (* _db->Write() *)
| EvGet (snap : option nat) (cf : ColumnFamilyHandle) (key : string)   (* _db->Get() *)
| EvNewIterator (snap : option nat) (cf : ColumnFamilyHandle)          (* _db->NewIterator() *)
| EvChangeCommit (c : Change)              (* change->commit() *)
| EvChangeRollback (c : Change)            (* change->rollback() *)
| EvLog (msg : string).                    (* log() *)

Global Instance Status_eq_dec : EqDecision Status.
Proof. solve_decision. Defined.
Global Instance WriteOptions_eq_dec : EqDecision WriteOptions.
Proof. solve_decision. Defined.
Global Instance Event_eq_dec : EqDecision Event.
Proof. solve_decision. Defined.

Record World := mkWorld {
  w_db : DB;
  w_counters : gmap CounterRef Z;
  w_trace : list Event
}.

Definition counter_value (r : CounterRef) (w : World) : Z :=
  default 0 (w_counters w !! r).

(** ** The recovery unit *)

(** Modelled from the spec: the class declaration (rocks_recovery_unit.h) is
    not among the sources.  A counter entry is a reference to a shared
    in-memory atomic integer and a signed accumulated delta, as
    [incrementCounter] builds it and [_commit] reads it. *)
Record Counter := mkCounter { _value : CounterRef; _delta : Z }.

(** Modelled from the spec: the fields are those the constructor initialises
    and the methods use, typed as in the spec's data model: a nesting depth,
    an optional write batch, an optional snapshot, the changes in insertion
    order, a map from counter key to counter entry, the durable flag and the
    oplog marker.  [_transactionEngine], [_db] and [_transaction] are the
    collaborators, kept in the [World]. *)
Record RocksRecoveryUnit := mkRU {
  _durable : bool;
  _writeBatch : option WriteBatchWithIndex;
  _snapshot : option Snapshot;
  _changes : list Change;
  _deltaCounters : gmap string Counter;
  _oplogReadTill : Z;
  _depth : Z
}.

Definition set_writeBatch (x : option WriteBatchWithIndex) (ru : RocksRecoveryUnit) :=
  mkRU (_durable ru) x (_snapshot ru) (_changes ru) (_deltaCounters ru)
       (_oplogReadTill ru) (_depth ru).
Definition set_snapshot (x : option Snapshot) (ru : RocksRecoveryUnit) :=
  mkRU (_durable ru) (_writeBatch ru) x (_changes ru) (_deltaCounters ru)
       (_oplogReadTill ru) (_depth ru).
Definition set_changes (x : list Change) (ru : RocksRecoveryUnit) :=
  mkRU (_durable ru) (_writeBatch ru) (_snapshot ru) x (_deltaCounters ru)
       (_oplogReadTill ru) (_depth ru).
Definition set_deltaCounters (x : gmap string Counter) (ru : RocksRecoveryUnit) :=
  mkRU (_durable ru) (_writeBatch ru) (_snapshot ru) (_changes ru) x
       (_oplogReadTill ru) (_depth ru).
Definition set_oplogReadTill (x : Z) (ru : RocksRecoveryUnit) :=
  mkRU (_durable ru) (_writeBatch ru) (_snapshot ru) (_changes ru) (_deltaCounters ru)
       x (_depth ru).
Definition set_depth (x : Z) (ru : RocksRecoveryUnit) :=
  mkRU (_durable ru) (_writeBatch ru) (_snapshot ru) (_changes ru) (_deltaCounters ru)
       (_oplogReadTill ru) x.

(** The constructor: no write batch, no snapshot, depth 0. *)
Definition RocksRecoveryUnit_new (durable : bool) : RocksRecoveryUnit :=
  mkRU durable None None [] ∅ 0 0.

(** ** The monad of the methods

    A method reads and updates the recovery unit and the world, and either
    returns or dies on a failed [invariant] (the process aborts).  A fatal
    outcome keeps the state at the point of death, so that what happened
    before it stays observable. *)

Definition St : Type := RocksRecoveryUnit * World.

Inductive Outcome (A : Type) :=
| Ok (a : A) (s : St)
| Fatal (s : St).
Arguments Ok {A} a s.
Arguments Fatal {A} s.

Definition final {A} (o : Outcome A) : St :=
  match o with Ok _ s => s | Fatal s => s end.

Definition M (A : Type) : Type := St -> Outcome A.

Definition run {A} (m : M A) (s : St) : Outcome A := m s.

Global Instance M_ret : MRet M := fun A a s => Ok a s.
Global Instance M_bind : MBind M := fun A B f m s =>
  match m s with
  | Ok a s' => f a s'
  | Fatal s' => Fatal s'
  end.

Definition this : M RocksRecoveryUnit := fun s => Ok (fst s) s.
Definition world : M World := fun s => Ok (snd s) s.
Definition update (f : RocksRecoveryUnit -> RocksRecoveryUnit) : M unit :=
  fun s => Ok tt (f (fst s), snd s).
Definition update_world (f : World -> World) : M unit :=
  fun s => Ok tt (fst s, f (snd s)).
Definition die {A} : M A := fun s => Fatal s.

Definition skip : M unit := mret tt.

(** [invariant(cond)] *)
Definition invariant (cond : bool) : M unit := if cond then skip else die.

Definition emit (e : Event) : M unit :=
  update_world (fun w => mkWorld (w_db w) (w_counters w) (w_trace w ++ [e])).

Definition set_db (db : DB) : M unit :=
  update_world (fun w => mkWorld db (w_counters w) (w_trace w)).

Fixpoint for_each {A} (l : list A) (body : A -> M unit) : M unit :=
  match l with
  | [] => skip
  | x :: rest => body x;; for_each rest body
  end.

(** *** Calls to the collaborators *)

(** Modelled from the spec: [RocksTransaction] (rocks_transaction.cpp) is not
    among the sources.  The conflict tracker is a collaborator whose
    operations the recovery unit calls; each call is recorded in the trace, in
    order. *)
Definition transaction_recordSnapshotId : M unit := emit EvRecordSnapshotId.
Definition transaction_commit : M unit := emit EvTxnCommit.
Definition transaction_abort : M unit := emit EvTxnAbort.

Definition Change_commit (c : Change) : M unit := emit (EvChangeCommit c).
Definition Change_rollback (c : Change) : M unit := emit (EvChangeRollback c).

Definition log (msg : string) : M unit := emit (EvLog msg).

Definition db_GetSnapshot : M Snapshot :=
  w ← world;
  let '(s, db') := DB_GetSnapshot (w_db w) in
  set_db db';;
  emit (EvGetSnapshot (snap_id s));;
  mret s.

Definition db_ReleaseSnapshot (s : Snapshot) : M unit :=
  w ← world;
  set_db (DB_ReleaseSnapshot s (w_db w));;
  emit (EvReleaseSnapshot (snap_id s)).

Definition db_Write (opts : WriteOptions) (ops : list WriteEntry) : M Status :=
  w ← world;
  let '(st, db') := DB_Write opts ops (w_db w) in
  set_db db';;
  emit (EvWrite opts ops st);;
  mret st.

Definition db_Get (options : ReadOptions) (cf : ColumnFamilyHandle) (key : string)
    : M (Status * option string) :=
  w ← world;
  emit (EvGet (snap_id <$> ro_snapshot options) cf key);;
  mret (DB_Get options cf key (w_db w)).

Definition db_NewIterator (options : ReadOptions) (cf : ColumnFamilyHandle) : M Iterator :=
  w ← world;
  emit (EvNewIterator (snap_id <$> ro_snapshot options) cf);;
  mret (DB_NewIterator options cf (w_db w)).

(** [counter->fetch_add(delta)] and [counter->load()] on a shared atomic. *)
Definition fetch_add (r : CounterRef) (delta : Z) : M unit :=
  update_world (fun w =>
    mkWorld (w_db w) (<[r := wrap64 (counter_value r w + delta)]> (w_counters w))
            (w_trace w)).

Definition load (r : CounterRef) : M Z :=
  w ← world; mret (counter_value r w).

(** *** The methods of [RocksRecoveryUnit] *)

Definition beginUnitOfWork : M unit :=
  update (fun ru => set_depth (_depth ru + 1) ru).

(** Lazily initialized: recovery units opened for reading alone have none. *)
Definition writeBatch : M WriteBatchWithIndex :=
  ru ← this;
  match _writeBatch ru with
  | Some wb => mret wb
  | None => update (set_writeBatch (Some wbwi_new));; mret wbwi_new
  end.

(** [writeBatch()->Put(...)] and [writeBatch()->Delete(...)]: an update made
    through the pointer that [writeBatch()] returns. *)
Definition writeBatch_Put (cf : ColumnFamilyHandle) (key value : string) : M unit :=
  wb ← writeBatch;
  update (set_writeBatch (Some (wbwi_Put cf key value wb))).

Definition writeBatch_Delete (cf : ColumnFamilyHandle) (key : string) : M unit :=
  wb ← writeBatch;
  update (set_writeBatch (Some (wbwi_Delete cf key wb))).

Definition setOplogReadTill (record : Z) : M unit :=
  update (set_oplogReadTill record).

Definition registerChange (change : Change) : M unit :=
  update (fun ru => set_changes (_changes ru ++ [change]) ru).

Definition _releaseSnapshot : M unit :=
  ru ← this;
  match _snapshot ru with
  | Some s => db_ReleaseSnapshot s;; update (set_snapshot None)
  | None => skip
  end.

Definition _commit : M unit :=
  ru ← this;
  invariant (bool_decide (is_Some (_writeBatch ru)));;
  for_each (map_to_list (_deltaCounters ru)) (fun pair =>
    let counter := pair.2 in
    fetch_add (_value counter) (_delta counter);;
    newValue ← load (_value counter);
    w ← world;
    writeBatch_Put (DefaultColumnFamily (w_db w)) pair.1 (encode_ll newValue));;
  ru ← this;
  match _writeBatch ru with
  | None => @die unit
  | Some wb =>
      (if negb (Count wb =? 0)%nat then
         let writeOptions := set_disableWAL (negb (_durable ru)) WriteOptions_default in
         status ← db_Write WriteOptions_default (wb_batch wb);
         (if negb (status_ok status) then
            log "uh oh";; @die unit
          else skip);;
         transaction_commit
       else skip);;
      update (set_deltaCounters ∅);;
      update (set_writeBatch None)
  end.

Definition commitUnitOfWork : M unit :=
  ru ← this;
  if (1 <? _depth ru) then
    skip (* only outermost gets committed. *)
  else
    (if bool_decide (is_Some (_writeBatch ru)) then _commit else skip);;
    ru ← this;
    for_each (_changes ru) Change_commit;;
    update (set_changes []);;
    _releaseSnapshot.

Definition _abort : M unit :=
  ru ← this;
  for_each (rev (_changes ru)) Change_rollback;;
  update (set_changes []);;
  transaction_abort;;
  update (set_deltaCounters ∅);;
  update (set_writeBatch None);;
  _releaseSnapshot.

Definition endUnitOfWork : M unit :=
  update (fun ru => set_depth (_depth ru - 1) ru);;
  ru ← this;
  if (_depth ru =? 0) then _abort else skip.

Definition awaitCommit : M bool := mret true.

Definition commitAndRestart : M unit :=
  ru ← this;
  invariant (_depth ru =? 0);;
  commitUnitOfWork.

(** The destructor. *)
Definition destroy : M unit := _abort.

Definition snapshot : M Snapshot :=
  ru ← this;
  match _snapshot ru with
  | Some s => mret s
  | None =>
      transaction_recordSnapshotId;;
      s ← db_GetSnapshot;
      update (set_snapshot (Some s));;
      mret s
  end.

Definition Get (columnFamily : ColumnFamilyHandle) (key : string)
    : M (Status * option string) :=
  ru ← this;
  let fall_through :=
    s ← snapshot;
    db_Get (mkReadOptions (Some s)) columnFamily key in
  match _writeBatch ru with
  | Some wb =>
      if (0 <? Count wb)%nat then
        match wbwi_Seek columnFamily key wb with
        | Some entry =>
            if String.eqb (w_key entry) key then
              match w_type entry with
              | kDeleteRecord => mret (StatusNotFound, None)
              | _ => mret (StatusOK, Some (w_value entry))
              end
            else fall_through
        | None => fall_through
        end
      else fall_through
  | None => fall_through
  end.

Definition NewIterator (columnFamily : ColumnFamilyHandlePtr) : M Iterator :=
  w ← world;
  invariant (negb (same_handle columnFamily (DefaultColumnFamilyHandle (w_db w))));;
  s ← snapshot;
  iterator ← db_NewIterator (mkReadOptions (Some s)) (GetID columnFamily);
  ru ← this;
  match _writeBatch ru with
  | Some wb =>
      if (0 <? Count wb)%nat
      then mret (IteratorWithBase wb (GetID columnFamily) iterator)
      else mret iterator
  | None => mret iterator
  end.

(** [_delta += delta] on a [long long]: the sum is kept in 64 bits. *)
Definition incrementCounter (counterKey : string) (counter : CounterRef) (delta : Z)
    : M unit :=
  if (delta =? 0) then skip
  else
    ru ← this;
    match _deltaCounters ru !! counterKey with
    | None =>
        update (set_deltaCounters (<[counterKey := mkCounter counter delta]> (_deltaCounters ru)))
    | Some c =>
        update (set_deltaCounters
                  (<[counterKey := mkCounter (_value c) (wrap64 (_delta c + delta))]>
                     (_deltaCounters ru)))
    end.

Definition getDeltaCounter (counterKey : string) : M Z :=
  ru ← this;
  match _deltaCounters ru !! counterKey with
  | None => mret 0
  | Some c => mret (_delta c)
  end.

(** ** The interface as a set of operations

    What the execution layer can do with a recovery unit, one constructor per
    entry point; [exec] runs an operation and drops its result. *)

Inductive Op :=
| OpBeginUnitOfWork
| OpCommitUnitOfWork
| OpEndUnitOfWork
| OpAwaitCommit
| OpCommitAndRestart
| OpWriteBatch
| OpPut (cf : ColumnFamilyHandle) (key value : string)
| OpDelete (cf : ColumnFamilyHandle) (key : string)
| OpSetOplogReadTill (record : Z)
| OpRegisterChange (change : Change)
| OpSnapshot
| OpGet (cf : ColumnFamilyHandle) (key : string)
| OpNewIterator (cf : ColumnFamilyHandlePtr)
| OpIncrementCounter (key : string) (counter : CounterRef) (delta : Z)
| OpGetDeltaCounter (key : string)
| OpDestroy.

Definition exec (op : Op) : M unit :=
  match op with
  | OpBeginUnitOfWork => beginUnitOfWork
  | OpCommitUnitOfWork => commitUnitOfWork
  | OpEndUnitOfWork => endUnitOfWork
  | OpAwaitCommit => awaitCommit;; skip
  | OpCommitAndRestart => commitAndRestart
  | OpWriteBatch => writeBatch;; skip
  | OpPut cf key value => writeBatch_Put cf key value
  | OpDelete cf key => writeBatch_Delete cf key
  | OpSetOplogReadTill record => setOplogReadTill record
  | OpRegisterChange change => registerChange change
  | OpSnapshot => snapshot;; skip
  | OpGet cf key => Get cf key;; skip
  | OpNewIterator cf => NewIterator cf;; skip
  | OpIncrementCounter key counter delta => incrementCounter key counter delta
  | OpGetDeltaCounter key => getDeltaCounter key;; skip
  | OpDestroy => destroy
  end.

(** An operation that ends the unit of work: a commit or an abort that is
    carried out, given the depth the unit is at. *)
Definition terminal (op : Op) (ru : RocksRecoveryUnit) : bool :=
  match op with
  | OpCommitUnitOfWork => negb (1 <? _depth ru)
  | OpCommitAndRestart => true
  | OpEndUnitOfWork => (_depth ru - 1 =? 0)
  | OpDestroy => true
  | _ => false
  end.

(** A run of operations none of which ends the unit of work. *)
Inductive in_unit : list Op -> St -> St -> Prop :=
| in_unit_nil s : in_unit [] s s
| in_unit_cons op ops s s1 s2 :
    terminal op (fst s) = false ->
    run (exec op) s = Ok tt s1 ->
    in_unit ops s1 s2 ->
    in_unit (op :: ops) s s2.

Fixpoint exec_all (ops : list Op) : M unit :=
  match ops with
  | [] => skip
  | op :: rest => exec op;; exec_all rest
  end.

Definition empty_db : DB := mkDB ∅ 0 [] false.
Definition empty_world : World := mkWorld empty_db ∅ [].

(** ** Notions used in the statements *)

(** The world with more events at the end of its trace. *)
Definition add_trace (tr : list Event) (w : World) : World :=
  mkWorld (w_db w) (w_counters w) (w_trace w ++ tr).

(** The world after [_releaseSnapshot]. *)
Definition release (ru : RocksRecoveryUnit) (w : World) : World :=
  match _snapshot ru with
  | Some s =>
      mkWorld (DB_ReleaseSnapshot s (w_db w)) (w_counters w)
              (w_trace w ++ [EvReleaseSnapshot (snap_id s)])
  | None => w
  end.

(** The loop of [_commit] over the counter deltas, as a function of the write
    batch and the shared counters. *)
Definition flush_step (acc : WriteBatchWithIndex * gmap CounterRef Z)
    (pair : string * Counter) : WriteBatchWithIndex * gmap CounterRef Z :=
  let v := wrap64 (default 0 (acc.2 !! _value pair.2) + _delta pair.2) in
  (wbwi_Put 0%nat pair.1 (encode_ll v) acc.1, <[_value pair.2 := v]> acc.2).

Definition flush (l : list (string * Counter))
    (acc : WriteBatchWithIndex * gmap CounterRef Z) :=
  fold_left flush_step l acc.

(** The trace only grows; the events of a call are those past the old end. *)
Definition events_of {A} (m : M A) (s : St) : list Event :=
  drop (length (w_trace (snd s))) (w_trace (snd (final (run m s)))).

(** The call that hands a batch to the store, with its status. *)
Definition write_events (ops : list WriteEntry) (st : Status) : list Event :=
  [EvWrite WriteOptions_default ops st].

(** The end of a commit: the changes' [commit()] calls, then the release of
    the snapshot when one is held. *)
Definition finish_events (ru : RocksRecoveryUnit) : list Event :=
  map EvChangeCommit (_changes ru) ++
  match _snapshot ru with
  | Some s => [EvReleaseSnapshot (snap_id s)]
  | None => []
  end.

(** The events of a commit that is carried out, in the three ways it can go:
    nothing to write, a batch the store rejects (the process dies), a batch
    the store accepts. *)
Inductive commit_shape (ru : RocksRecoveryUnit) (w : World) : list Event -> Prop :=
| shape_nothing_to_write :
    (forall wb, _writeBatch ru = Some wb ->
       Count wb = 0%nat /\ _deltaCounters ru = ∅) ->
    commit_shape ru w (finish_events ru)
| shape_write_failed wb ops :
    _writeBatch ru = Some wb ->
    Count wb <> 0%nat \/ _deltaCounters ru <> ∅ ->
    ops <> [] ->
    db_write_fails (w_db w) = true ->
    commit_shape ru w (write_events ops StatusIOError ++ [EvLog "uh oh"])
| shape_written wb ops :
    _writeBatch ru = Some wb ->
    Count wb <> 0%nat \/ _deltaCounters ru <> ∅ ->
    ops <> [] ->
    db_write_fails (w_db w) = false ->
    commit_shape ru w (write_events ops StatusOK ++ [EvTxnCommit] ++ finish_events ru).

(** Kinds of events. *)
Definition is_write_event (e : Event) : bool :=
  match e with EvWrite _ _ _ => true | _ => false end.

Definition is_change_event (e : Event) : bool :=
  match e with EvChangeCommit _ | EvChangeRollback _ => true | _ => false end.

(** The registered changes' calls among the events, in order. *)
Definition change_events (tr : list Event) : list Event := List.filter is_change_event tr.

(** [registerChange] on each of a list of changes, in order. *)
Definition register_all (cs : list Change) : M unit := for_each cs registerChange.

(** The index entry of a column family and key, if there is one. *)
Fixpoint index_find (cf : nat) (key : string) (idx : list WriteEntry) : option WriteEntry :=
  match idx with
  | [] => None
  | x :: rest =>
      if same_slot cf key (w_cf x) (w_key x) then Some x else index_find cf key rest
  end.

(** Strictly below, in the order of the index. *)
Definition index_lt (x y : WriteEntry) : Prop :=
  index_le (w_cf y) (w_key y) (w_cf x) (w_key x) = false.

(** The latest buffered operation on a column family and key. *)
Definition buffered (ru : RocksRecoveryUnit) (cf : ColumnFamilyHandle) (key : string)
    : option WriteEntry :=
  match _writeBatch ru with
  | Some wb => last_op cf key (wb_batch wb)
  | None => None
  end.

(** The write batch, when there is one, has the index of its operations. *)
Definition ru_wf (ru : RocksRecoveryUnit) : Prop :=
  match _writeBatch ru with
  | Some wb => wbwi_wf wb
  | None => True
  end.

(** The state after [snapshot()] when no snapshot is held. *)
Definition acquire (ru : RocksRecoveryUnit) (w : World) : St :=
  let s := (DB_GetSnapshot (w_db w)).1 in
  (set_snapshot (Some s) ru,
   mkWorld (DB_GetSnapshot (w_db w)).2 (w_counters w)
           (w_trace w ++ [EvRecordSnapshotId; EvGetSnapshot (snap_id s)])).

(** No operation empties the write batch or the counter deltas alone. *)
Definition cleared_together (ru ru' : RocksRecoveryUnit) : Prop :=
  (is_Some (_writeBatch ru) -> _writeBatch ru' = None -> _deltaCounters ru' = ∅) /\
  (_deltaCounters ru <> ∅ -> _deltaCounters ru' = ∅ -> _writeBatch ru' = None).

Definition is_snapshot_event (e : Event) : bool :=
  match e with
  | EvRecordSnapshotId | EvGetSnapshot _ | EvReleaseSnapshot _ => true
  | _ => false
  end.

Definition no_snapshot_events (tr : list Event) : Prop :=
  Forall (fun e => is_snapshot_event e = false) tr.

(** What an operation does about the snapshot when none is held: it ends
    either still without one, having asked the store for none, or with the one
    it acquired, and then its first two calls are [recordSnapshotId()] and
    [GetSnapshot()], in that order. *)
Definition acquires_in_order (ru : RocksRecoveryUnit) (w : World) (m : M unit) : Prop :=
  match _snapshot (fst (final (run m (ru, w)))) with
  | Some s =>
      exists rest,
        events_of m (ru, w) = [EvRecordSnapshotId; EvGetSnapshot (snap_id s)] ++ rest /\
        no_snapshot_events rest
  | None => no_snapshot_events (events_of m (ru, w))
  end.

(** The delta pending on a counter key: what [getDeltaCounter] reads. *)
Definition pending (ru : RocksRecoveryUnit) (key : string) : Z :=
  match _deltaCounters ru !! key with
  | Some c => _delta c
  | None => 0
  end.

(** The values of a [long long]. *)
Definition in_range (z : Z) : Prop := LLONG_MIN <= z <= LLONG_MAX.

(** A run of [incrementCounter] calls, each with its key, counter and delta. *)
Definition increment_all (incs : list (string * CounterRef * Z)) : M unit :=
  for_each incs (fun i => incrementCounter i.1.1 i.1.2 i.2).

(** The sum of the deltas of the calls on one key. *)
Fixpoint delta_sum (key : string) (incs : list (string * CounterRef * Z)) : Z :=
  match incs with
  | [] => 0
  | i :: rest => (if String.eqb i.1.1 key then i.2 else 0) + delta_sum key rest
  end.

(** The snapshots the trace shows acquired, and those it shows released. *)
Fixpoint acquired (tr : list Event) : list nat :=
  match tr with
  | [] => []
  | EvGetSnapshot id :: rest => id :: acquired rest
  | _ :: rest => acquired rest
  end.

Fixpoint released (tr : list Event) : list nat :=
  match tr with
  | [] => []
  | EvReleaseSnapshot id :: rest => id :: released rest
  | _ :: rest => released rest
  end.

(** Every snapshot acquired so far has been released, in the order of
    acquisition, but the one the unit holds. *)
Definition snapshot_ledger (ru : RocksRecoveryUnit) (w : World) : Prop :=
  acquired (w_trace w) =
  released (w_trace w) ++ option_list (snap_id <$> _snapshot ru).

(** The same call, a number of times over. *)
Fixpoint repeat_m (n : nat) (m : M unit) : M unit :=
  match n with
  | O => skip
  | S n' => m;; repeat_m n' m
  end.

(** What a call returned, when it returned. *)
Definition result_of {A} (o : Outcome A) : option A :=
  match o with Ok a _ => Some a | Fatal _ => None end.

(** What the latest operation of a batch on a key leaves under the key. *)
Definition written_value (e : WriteEntry) : option string :=
  match w_type e with
  | kPutRecord => Some (w_value e)
  | kDeleteRecord => None
  end.

(** The column family an iterator ranges over. *)
Definition iterator_family (it : Iterator) : ColumnFamilyHandle :=
  match it with
  | BaseIterator _ cf => cf
  | IteratorWithBase _ cf _ => cf
  end.

(** The iterator [NewIterator] hands out over a base iterator: under the
    overlay of the write batch when the batch holds operations. *)
Definition overlay (ru : RocksRecoveryUnit) (cf : ColumnFamilyHandle) (base : Iterator)
    : Iterator :=
  match _writeBatch ru with
  | Some wb => if (0 <? Count wb)%nat then IteratorWithBase wb cf base else base
  | None => base
  end.

(** ** Running the methods: the equations of the model *)

Lemma run_bind {A B} (m : M A) (f : A -> M B) s :
  run (m ≫= f) s =
  match run m s with Ok a s' => run (f a) s' | Fatal s' => Fatal s' end.
Proof. reflexivity. Qed.

Lemma run_ret {A} (a : A) s : run (mret a) s = Ok a s.
Proof. reflexivity. Qed.

Lemma run_skip s : run skip s = Ok tt s.
Proof. reflexivity. Qed.

Lemma run_die {A} s : run (@die A) s = Fatal s.
Proof. reflexivity. Qed.

Lemma run_this s : run this s = Ok (fst s) s.
Proof. reflexivity. Qed.

Lemma run_world s : run world s = Ok (snd s) s.
Proof. reflexivity. Qed.

Lemma run_update f s : run (update f) s = Ok tt (f (fst s), snd s).
Proof. reflexivity. Qed.

Lemma run_update_world f s : run (update_world f) s = Ok tt (fst s, f (snd s)).
Proof. reflexivity. Qed.

Lemma run_emit e s : run (emit e) s = Ok tt (fst s, add_trace [e] (snd s)).
Proof. reflexivity. Qed.

Lemma run_set_db db s :
  run (set_db db) s = Ok tt (fst s, mkWorld db (w_counters (snd s)) (w_trace (snd s))).
Proof. reflexivity. Qed.

Lemma run_invariant_true s : run (invariant true) s = Ok tt s.
Proof. reflexivity. Qed.

Lemma run_invariant_false s : run (invariant false) s = Fatal s.
Proof. reflexivity. Qed.

Global Opaque run.

Ltac step :=
  repeat first
    [ rewrite run_bind | rewrite run_ret | rewrite run_skip | rewrite run_die
    | rewrite run_this | rewrite run_world | rewrite run_update
    | rewrite run_update_world | rewrite run_emit | rewrite run_set_db
    | rewrite run_invariant_true | rewrite run_invariant_false
    | progress cbn [fst snd] ].

Lemma add_trace_nil w : add_trace [] w = w.
Proof. destruct w; unfold add_trace; simpl. by rewrite app_nil_r. Qed.

Lemma add_trace_app tr1 tr2 w :
  add_trace tr2 (add_trace tr1 w) = add_trace (tr1 ++ tr2) w.
Proof. unfold add_trace; simpl. by rewrite app_assoc. Qed.

Lemma set_snapshot_id ru : _snapshot ru = None -> set_snapshot None ru = ru.
Proof. destruct ru; simpl; intros ->; reflexivity. Qed.

Lemma for_each_emit {A} (f : A -> Event) (l : list A) ru w :
  run (for_each l (fun x => emit (f x))) (ru, w) = Ok tt (ru, add_trace (map f l) w).
Proof.
  revert w; induction l as [|x l IH]; intros w; cbn [for_each map].
  - step. by rewrite add_trace_nil.
  - step. rewrite IH, add_trace_app. reflexivity.
Qed.

Lemma _releaseSnapshot_run ru w :
  run _releaseSnapshot (ru, w) = Ok tt (set_snapshot None ru, release ru w).
Proof.
  unfold _releaseSnapshot, release, db_ReleaseSnapshot. step.
  destruct (_snapshot ru) as [s|] eqn:Hs; step.
  - reflexivity.
  - by rewrite set_snapshot_id.
Qed.

Lemma _abort_run ru w :
  run _abort (ru, w) =
  Ok tt (mkRU (_durable ru) None None [] ∅ (_oplogReadTill ru) (_depth ru),
         release ru (add_trace (map EvChangeRollback (rev (_changes ru)) ++ [EvTxnAbort]) w)).
Proof.
  unfold _abort, Change_rollback, transaction_abort. step.
  rewrite (for_each_emit EvChangeRollback). step.
  rewrite _releaseSnapshot_run, add_trace_app. reflexivity.
Qed.

Lemma set_writeBatch_id ru wb : _writeBatch ru = Some wb -> set_writeBatch (Some wb) ru = ru.
Proof. destruct ru; simpl; intros ->; reflexivity. Qed.

Lemma world_eta w : mkWorld (w_db w) (w_counters w) (w_trace w) = w.
Proof. by destruct w. Qed.

Lemma flush_loop l ru w wb :
  _writeBatch ru = Some wb ->
  run (for_each l (fun pair : string * Counter =>
         let counter := pair.2 in
         fetch_add (_value counter) (_delta counter);;
         newValue ← load (_value counter);
         w ← world;
         writeBatch_Put (DefaultColumnFamily (w_db w)) pair.1 (encode_ll newValue)))
      (ru, w) =
  Ok tt (set_writeBatch (Some (flush l (wb, w_counters w)).1) ru,
         mkWorld (w_db w) (flush l (wb, w_counters w)).2 (w_trace w)).
Proof.
  revert ru w wb; induction l as [|[k c] l IH]; intros ru w wb Hwb; cbn [for_each].
  - step. unfold flush; cbn [fold_left fst snd].
    by rewrite set_writeBatch_id, world_eta.
  - cbv zeta. unfold fetch_add, load, writeBatch_Put, writeBatch. step.
    rewrite Hwb. step.
    erewrite IH by reflexivity.
    unfold flush; cbn [fold_left]. unfold flush_step at 2 4, counter_value, DefaultColumnFamily.
    cbn [fst snd w_counters w_db w_trace _value _delta].
    rewrite lookup_insert_eq. cbn [default].
    destruct ru; reflexivity.
Qed.

Lemma _commit_run ru w wb :
  _writeBatch ru = Some wb ->
  let acc := flush (map_to_list (_deltaCounters ru)) (wb, w_counters w) in
  run _commit (ru, w) =
  if (Count acc.1 =? 0)%nat then
    Ok tt (set_writeBatch None (set_deltaCounters ∅ ru),
           mkWorld (w_db w) acc.2 (w_trace w))
  else if db_write_fails (w_db w) then
    Fatal (set_writeBatch (Some acc.1) ru,
           mkWorld (w_db w) acc.2
             (w_trace w ++ [EvWrite WriteOptions_default (wb_batch acc.1) StatusIOError;
                            EvLog "uh oh"]))
  else
    Ok tt (set_writeBatch None (set_deltaCounters ∅ ru),
           mkWorld (DB_Write WriteOptions_default (wb_batch acc.1) (w_db w)).2 acc.2
             (w_trace w ++ [EvWrite WriteOptions_default (wb_batch acc.1) StatusOK;
                            EvTxnCommit])).
Proof.
  intros Hwb acc. unfold _commit. step. rewrite Hwb.
  rewrite bool_decide_eq_true_2 by eauto. step.
  rewrite (flush_loop _ _ _ wb Hwb). fold acc. step.
  cbn [set_writeBatch _writeBatch].
  destruct (Count acc.1 =? 0)%nat; cbn [negb]; step.
  - destruct ru; reflexivity.
  - unfold db_Write, DB_Write, log, transaction_commit. step.
    cbn [w_db].
    destruct (db_write_fails (w_db w)) eqn:Hf; step; cbn [status_ok negb]; step.
    + unfold add_trace; cbn. rewrite <- app_assoc.
      destruct w as [[] ? ?]; cbn in *; subst; reflexivity.
    + unfold add_trace; cbn. rewrite <- app_assoc. destruct ru; reflexivity.
Qed.

Lemma commitUnitOfWork_nested ru w :
  1 < _depth ru -> run commitUnitOfWork (ru, w) = Ok tt (ru, w).
Proof.
  intros Hd. unfold commitUnitOfWork. step.
  apply Z.ltb_lt in Hd. rewrite Hd. by step.
Qed.

Lemma commitUnitOfWork_outermost ru w :
  _depth ru <= 1 ->
  run commitUnitOfWork (ru, w) =
  match run (if bool_decide (is_Some (_writeBatch ru)) then _commit else skip) (ru, w) with
  | Ok _ s1 =>
      Ok tt (set_snapshot None (set_changes [] (fst s1)),
             release (fst s1) (add_trace (map EvChangeCommit (_changes (fst s1))) (snd s1)))
  | Fatal s1 => Fatal s1
  end.
Proof.
  intros Hd. unfold commitUnitOfWork. step.
  apply Z.ltb_ge in Hd. rewrite Hd. step.
  destruct (run (if bool_decide (is_Some (_writeBatch ru)) then _commit else skip) (ru, w))
    as [[] [ru1 w1]|s1]; [|reflexivity].
  unfold Change_commit. step. rewrite (for_each_emit EvChangeCommit). step.
  rewrite _releaseSnapshot_run. reflexivity.
Qed.

(** ** What a method call adds to the trace *)

Lemma events_of_intro {A} (m : M A) s tr :
  w_trace (snd (final (run m s))) = w_trace (snd s) ++ tr -> events_of m s = tr.
Proof. unfold events_of. intros ->. apply drop_app_length. Qed.

Lemma release_trace ru w :
  w_trace (release ru w) =
  w_trace w ++ match _snapshot ru with
               | Some s => [EvReleaseSnapshot (snap_id s)]
               | None => []
               end.
Proof. unfold release. destruct (_snapshot ru); simpl; by rewrite ?app_nil_r. Qed.

Lemma release_counters ru w : w_counters (release ru w) = w_counters w.
Proof. unfold release. by destruct (_snapshot ru). Qed.

Lemma release_db_data ru w : db_data (w_db (release ru w)) = db_data (w_db w).
Proof. unfold release. by destruct (_snapshot ru). Qed.

Lemma flush_Count l acc : Count (flush l acc).1 = (Count acc.1 + length l)%nat.
Proof.
  revert acc; induction l as [|p l IH]; intros acc; unfold flush in *; cbn [fold_left length].
  - lia.
  - rewrite IH. unfold flush_step, wbwi_Put, wbwi_add, Count; cbn.
    rewrite length_app; cbn. lia.
Qed.

Lemma commitUnitOfWork_shape ru w :
  _depth ru <= 1 -> commit_shape ru w (events_of commitUnitOfWork (ru, w)).
Proof.
  intros Hd.
  destruct (_writeBatch ru) as [wb|] eqn:Hwb.
  - pose proof (_commit_run ru w wb Hwb) as Hc. cbv zeta in Hc.
    pose proof (flush_Count (map_to_list (_deltaCounters ru)) (wb, w_counters w)) as Hn.
    set (acc := flush (map_to_list (_deltaCounters ru)) (wb, w_counters w)) in *.
    cbn [fst] in Hn.
    destruct (Count acc.1 =? 0)%nat eqn:Hz.
    + apply Nat.eqb_eq in Hz.
      erewrite events_of_intro; [apply shape_nothing_to_write|].
      * intros wb' Hwb'. rewrite Hwb in Hwb'. injection Hwb' as <-. split; [lia|].
        apply map_to_list_empty_iff. apply length_zero_iff_nil. lia.
      * rewrite (commitUnitOfWork_outermost _ _ Hd), Hwb.
        rewrite bool_decide_eq_true_2 by eauto. rewrite Hc.
        cbn [final fst snd]. rewrite release_trace. unfold finish_events.
        cbn. by rewrite app_assoc.
    + apply Nat.eqb_neq in Hz.
      assert (wb_batch acc.1 <> []) as Hne.
      { intros E. apply Hz. unfold Count. by rewrite E. }
      assert (Count wb <> 0%nat \/ _deltaCounters ru <> ∅) as Hp.
      { destruct (decide (Count wb = 0%nat)) as [E|]; [right|by left].
        intros E'. rewrite E' in Hn. rewrite map_to_list_empty in Hn. cbn in Hn. lia. }
      destruct (db_write_fails (w_db w)) eqn:Hf.
      * erewrite events_of_intro; [eapply shape_write_failed; eauto|].
        rewrite (commitUnitOfWork_outermost _ _ Hd), Hwb.
        rewrite bool_decide_eq_true_2 by eauto. rewrite Hc.
        cbn [final fst snd w_trace]. reflexivity.
      * erewrite events_of_intro; [eapply shape_written; eauto|].
        rewrite (commitUnitOfWork_outermost _ _ Hd), Hwb.
        rewrite bool_decide_eq_true_2 by eauto. rewrite Hc.
        cbn [final fst snd]. rewrite release_trace. unfold finish_events.
        cbn. rewrite <- !app_assoc. reflexivity.
  - erewrite events_of_intro; [apply shape_nothing_to_write|].
    + intros wb'. rewrite Hwb. discriminate.
    + rewrite (commitUnitOfWork_outermost _ _ Hd), Hwb.
      rewrite bool_decide_eq_false_2 by (intros [? ?]; discriminate).
      rewrite run_skip. cbn [final fst snd]. rewrite release_trace.
      unfold finish_events. cbn. by rewrite app_assoc.
Qed.

Lemma register_all_run cs ru w :
  run (register_all cs) (ru, w) = Ok tt (set_changes (_changes ru ++ cs) ru, w).
Proof.
  unfold register_all. revert ru; induction cs as [|c cs IH]; intros ru; cbn [for_each].
  - step. rewrite app_nil_r. by destruct ru.
  - rewrite run_bind. unfold registerChange at 1. step. rewrite IH. cbn.
    by rewrite <- app_assoc.
Qed.

Lemma change_events_commits cs : change_events (map EvChangeCommit cs) = map EvChangeCommit cs.
Proof. unfold change_events. induction cs; cbn; congruence. Qed.

Lemma change_events_rollbacks cs :
  change_events (map EvChangeRollback cs) = map EvChangeRollback cs.
Proof. unfold change_events. induction cs; cbn; congruence. Qed.

Lemma change_events_finish ru :
  change_events (finish_events ru) = map EvChangeCommit (_changes ru).
Proof.
  unfold finish_events, change_events. rewrite List.filter_app.
  fold (change_events (map EvChangeCommit (_changes ru))).
  rewrite change_events_commits. destruct (_snapshot ru); cbn; by rewrite app_nil_r.
Qed.

Lemma commitUnitOfWork_ok ru w :
  _depth ru <= 1 -> db_write_fails (w_db w) = false ->
  exists s', run commitUnitOfWork (ru, w) = Ok tt s' /\
             _changes (fst s') = [] /\ _writeBatch (fst s') = None /\
             _snapshot (fst s') = None /\
             (is_Some (_writeBatch ru) -> _deltaCounters (fst s') = ∅).
Proof.
  intros Hd Hf. rewrite (commitUnitOfWork_outermost _ _ Hd).
  destruct (_writeBatch ru) as [wb|] eqn:Hwb.
  - rewrite bool_decide_eq_true_2 by eauto.
    rewrite (_commit_run ru w wb Hwb). cbv zeta. rewrite Hf.
    destruct (Count _ =? 0)%nat; eexists; (split; [reflexivity|]); cbn; auto.
  - rewrite bool_decide_eq_false_2 by (intros [? ?]; discriminate).
    rewrite run_skip. eexists; split; [reflexivity|]. cbn.
    repeat split; auto. intros [? ?]; discriminate.
Qed.

Lemma commitUnitOfWork_post ru w s1 :
  _depth ru <= 1 -> run commitUnitOfWork (ru, w) = Ok tt s1 ->
  _changes (fst s1) = [] /\ _writeBatch (fst s1) = None /\ _snapshot (fst s1) = None /\
  _depth (fst s1) = _depth ru /\ _durable (fst s1) = _durable ru /\
  (is_Some (_writeBatch ru) -> _deltaCounters (fst s1) = ∅).
Proof.
  intros Hd. rewrite (commitUnitOfWork_outermost _ _ Hd).
  destruct (_writeBatch ru) as [wb|] eqn:Hwb.
  - rewrite bool_decide_eq_true_2 by eauto.
    rewrite (_commit_run ru w wb Hwb). cbv zeta.
    destruct (Count _ =? 0)%nat; [|destruct (db_write_fails (w_db w))];
      intros E; inversion E; subst; cbn; auto 10.
  - rewrite bool_decide_eq_false_2 by (intros [? ?]; discriminate).
    rewrite run_skip. intros E; inversion E; subst; cbn.
    repeat split; auto. intros [? ?]; discriminate.
Qed.

Lemma finish_events_no_commit ru : EvTxnCommit ∉ finish_events ru.
Proof.
  unfold finish_events. rewrite elem_of_app, list_elem_of_fmap. intros [(c & E & _)|H].
  - discriminate.
  - destruct (_snapshot ru); [apply list_elem_of_singleton in H; discriminate|].
    by apply not_elem_of_nil in H.
Qed.

Lemma count_occ_not_elem (l : list Event) e : e ∉ l -> count_occ Event_eq_dec l e = 0%nat.
Proof. intros H. apply count_occ_not_In. by rewrite <- list_elem_of_In. Qed.

(** ** The index of the write batch *)

Lemma leb_refl k : String.leb k k = true.
Proof. apply Is_true_true. change (String.le k k). reflexivity. Qed.

Lemma leb_trans a b c :
  String.leb a b = true -> String.leb b c = true -> String.leb a c = true.
Proof.
  rewrite <- !Is_true_true. change (String.le a b -> String.le b c -> String.le a c).
  intros. by etrans.
Qed.

Lemma same_slot_spec cf1 k1 cf2 k2 :
  same_slot cf1 k1 cf2 k2 = true <-> cf1 = cf2 /\ k1 = k2.
Proof.
  unfold same_slot. rewrite andb_true_iff, Nat.eqb_eq, String.eqb_eq. tauto.
Qed.

Lemma index_le_refl cf k : index_le cf k cf k = true.
Proof. unfold index_le. rewrite Nat.eqb_refl, leb_refl. apply orb_true_r. Qed.

Lemma index_le_cases cf1 k1 cf2 k2 :
  index_le cf1 k1 cf2 k2 = true <->
  (cf1 < cf2)%nat \/ (cf1 = cf2 /\ String.leb k1 k2 = true).
Proof.
  unfold index_le. rewrite orb_true_iff, andb_true_iff, Nat.ltb_lt, Nat.eqb_eq. tauto.
Qed.

Lemma index_le_antisym cf1 k1 cf2 k2 :
  index_le cf1 k1 cf2 k2 = true -> index_le cf2 k2 cf1 k1 = true ->
  same_slot cf1 k1 cf2 k2 = true.
Proof.
  rewrite !index_le_cases, same_slot_spec.
  intros [?|[-> H1]] [?|[? H2]]; try lia. split; [done|].
  by apply String.leb_antisym.
Qed.

Lemma index_le_trans cf1 k1 cf2 k2 cf3 k3 :
  index_le cf1 k1 cf2 k2 = true -> index_le cf2 k2 cf3 k3 = true ->
  index_le cf1 k1 cf3 k3 = true.
Proof.
  rewrite !index_le_cases.
  intros [?|[-> H1]] [?|[-> H2]]; try (left; lia); try (by left).
  right. split; [done|]. by eapply leb_trans.
Qed.

Lemma index_insert_Forall (P : WriteEntry -> Prop) e idx :
  P e -> Forall P idx -> Forall P (index_insert e idx).
Proof.
  intros He. induction 1 as [|x rest Hx Hrest IH]; cbn [index_insert].
  - by constructor.
  - destruct (same_slot _ _ _ _); [by constructor|].
    destruct (index_le _ _ _ _); by repeat constructor.
Qed.

Lemma index_insert_sorted e idx :
  StronglySorted index_lt idx -> StronglySorted index_lt (index_insert e idx).
Proof.
  induction 1 as [|x rest Hs IH Hall]; cbn [index_insert].
  - repeat constructor.
  - destruct (same_slot _ _ _ _) eqn:Hsame.
    + apply same_slot_spec in Hsame as [Hcf Hk].
      constructor; [done|]. unfold index_lt in *. by rewrite Hcf, Hk.
    + destruct (index_le (w_cf e) (w_key e) (w_cf x) (w_key x)) eqn:Hle.
      * assert (index_lt e x) as Hex.
        { unfold index_lt. destruct (index_le (w_cf x) _ _ _) eqn:Hxe; [|done].
          rewrite (index_le_antisym _ _ _ _ Hle Hxe) in Hsame. discriminate. }
        constructor; [by constructor|]. constructor; [done|].
        eapply Forall_impl; [exact Hall|]. intros y Hxy. unfold index_lt in *.
        destruct (index_le (w_cf y) (w_key y) (w_cf e) (w_key e)) eqn:Hye; [|done].
        by rewrite (index_le_trans _ _ _ _ _ _ Hye Hle) in Hxy.
      * constructor; [done|]. by apply index_insert_Forall.
Qed.

Lemma build_index_snoc ops e : build_index (ops ++ [e]) = index_insert e (build_index ops).
Proof. unfold build_index. by rewrite fold_left_app. Qed.

Lemma build_index_sorted ops : StronglySorted index_lt (build_index ops).
Proof.
  induction ops as [|e ops IH] using rev_ind.
  - constructor.
  - rewrite build_index_snoc. by apply index_insert_sorted.
Qed.

Lemma last_op_snoc cf key ops e :
  last_op cf key (ops ++ [e]) =
  if same_slot cf key (w_cf e) (w_key e) then Some e else last_op cf key ops.
Proof.
  induction ops as [|x ops IH]; cbn [app last_op].
  - reflexivity.
  - rewrite IH. by destruct (same_slot cf key (w_cf e) (w_key e)).
Qed.

Lemma same_slot_trans_l cf k cf1 k1 cf2 k2 :
  same_slot cf1 k1 cf2 k2 = true -> same_slot cf k cf1 k1 = same_slot cf k cf2 k2.
Proof. intros [-> ->]%same_slot_spec. reflexivity. Qed.

Lemma index_find_insert cf key e idx :
  index_find cf key (index_insert e idx) =
  if same_slot cf key (w_cf e) (w_key e) then Some e else index_find cf key idx.
Proof.
  induction idx as [|x rest IH]; cbn [index_insert index_find].
  - reflexivity.
  - destruct (same_slot (w_cf e) _ _ _) eqn:Hsame.
    + cbn [index_find]. rewrite <- (same_slot_trans_l cf key _ _ _ _ Hsame).
      by destruct (same_slot cf key (w_cf e) (w_key e)).
    + destruct (index_le _ _ _ _); cbn [index_find]; [reflexivity|].
      rewrite IH.
      destruct (same_slot cf key (w_cf x) (w_key x)) eqn:Hx; [|reflexivity].
      destruct (same_slot cf key (w_cf e) (w_key e)) eqn:He; [|reflexivity].
      apply same_slot_spec in Hx as [Hx1 Hx2]. apply same_slot_spec in He as [He1 He2].
      assert (same_slot (w_cf e) (w_key e) (w_cf x) (w_key x) = true) as Hc
        by (apply same_slot_spec; split; congruence).
      congruence.
Qed.

Lemma index_find_build cf key ops :
  index_find cf key (build_index ops) = last_op cf key ops.
Proof.
  induction ops as [|e ops IH] using rev_ind.
  - reflexivity.
  - by rewrite build_index_snoc, index_find_insert, last_op_snoc, IH.
Qed.

Lemma index_find_slot cf key idx e :
  index_find cf key idx = Some e -> w_cf e = cf /\ w_key e = key.
Proof.
  induction idx as [|x rest IH]; cbn [index_find]; [discriminate|].
  destruct (same_slot _ _ _ _) eqn:Hs; [|done].
  intros [= <-]. by apply same_slot_spec in Hs as [-> ->].
Qed.

Lemma index_seek_found cf key idx e :
  StronglySorted index_lt idx ->
  index_find cf key idx = Some e -> index_seek cf key idx = Some e.
Proof.
  induction 1 as [|x rest Hs IH Hall]; cbn [index_find index_seek]; [done|].
  destruct (same_slot _ _ _ _) eqn:Hsame.
  - apply same_slot_spec in Hsame as [<- <-]. by rewrite index_le_refl.
  - intros Hfind. destruct (index_find_slot _ _ _ _ Hfind) as [Hcf Hk].
    assert (index_lt x e) as Hlt.
    { rewrite Forall_forall in Hall. apply Hall.
      clear -Hfind. induction rest as [|y rest IH]; cbn [index_find] in Hfind; [done|].
      destruct (same_slot _ _ _ _); [injection Hfind as ->; by left|right; auto]. }
    unfold index_lt in Hlt. rewrite Hcf, Hk in Hlt. rewrite Hlt. auto.
Qed.

Lemma index_seek_other cf key idx e :
  index_find cf key idx = None -> index_seek cf key idx = Some e ->
  same_slot cf key (w_cf e) (w_key e) = false.
Proof.
  induction idx as [|x rest IH]; cbn [index_find index_seek]; [discriminate|].
  destruct (same_slot _ _ (w_cf x) _) eqn:Hsame; [discriminate|].
  destruct (index_le _ _ _ _); [by intros _ [= <-]|auto].
Qed.

(** With a consistent index, a seek in the batch lands on the key exactly
    when the batch holds an operation on it, and then on the latest one. *)
Lemma wbwi_Seek_latest cf key wb e :
  wbwi_wf wb -> last_op cf key (wb_batch wb) = Some e ->
  wbwi_Seek cf key wb = Some e /\ String.eqb (w_key e) key = true.
Proof.
  unfold wbwi_wf, wbwi_Seek. intros -> Hlast.
  rewrite <- index_find_build in Hlast.
  destruct (index_find_slot _ _ _ _ Hlast) as [Hcf Hk].
  rewrite (index_seek_found _ _ _ _ (build_index_sorted _) Hlast).
  rewrite Hcf, Nat.eqb_refl. split; [done|]. by apply String.eqb_eq.
Qed.

Lemma wbwi_Seek_absent cf key wb e :
  wbwi_wf wb -> last_op cf key (wb_batch wb) = None ->
  wbwi_Seek cf key wb = Some e -> String.eqb (w_key e) key = false.
Proof.
  unfold wbwi_wf, wbwi_Seek. intros -> Hlast.
  rewrite <- index_find_build in Hlast.
  destruct (index_seek cf key _) as [x|] eqn:Hseek; [|discriminate].
  pose proof (index_seek_other _ _ _ _ Hlast Hseek) as Hne.
  destruct (w_cf x =? cf)%nat eqn:Hcf; [|discriminate].
  intros [= <-]. apply Nat.eqb_eq in Hcf.
  unfold same_slot in Hne. rewrite Hcf, Nat.eqb_refl in Hne. cbn in Hne.
  by rewrite String.eqb_sym.
Qed.

(** ** Reads *)

Lemma snapshot_run ru w :
  run snapshot (ru, w) =
  match _snapshot ru with
  | Some s => Ok s (ru, w)
  | None => Ok (DB_GetSnapshot (w_db w)).1 (acquire ru w)
  end.
Proof.
  unfold snapshot, db_GetSnapshot, transaction_recordSnapshotId, acquire. step.
  destruct (_snapshot ru); step; [reflexivity|].
  cbn [DB_GetSnapshot]. step. unfold add_trace; cbn. by rewrite <- app_assoc.
Qed.

(** [Get] when the batch has nothing to say about the key: the lookup goes to
    the store, under the snapshot. *)
Lemma fall_through_run ru w cf key :
  run (s ← snapshot; db_Get (mkReadOptions (Some s)) cf key) (ru, w) =
  match _snapshot ru with
  | Some s =>
      Ok (lookup_result (snap_data s !! (cf, key)))
         (ru, add_trace [EvGet (Some (snap_id s)) cf key] w)
  | None =>
      Ok (lookup_result (db_data (w_db w) !! (cf, key)))
         (fst (acquire ru w),
          add_trace [EvGet (Some (db_next_snapshot (w_db w))) cf key] (snd (acquire ru w)))
  end.
Proof.
  rewrite run_bind, snapshot_run. unfold db_Get.
  destruct (_snapshot ru); step; reflexivity.
Qed.

Lemma Get_run ru w cf key :
  ru_wf ru ->
  run (Get cf key) (ru, w) =
  match buffered ru cf key with
  | Some entry =>
      Ok (match w_type entry with
          | kDeleteRecord => (StatusNotFound, None)
          | kPutRecord => (StatusOK, Some (w_value entry))
          end) (ru, w)
  | None => run (s ← snapshot; db_Get (mkReadOptions (Some s)) cf key) (ru, w)
  end.
Proof.
  unfold ru_wf, buffered, Get. intros Hwf. step.
  destruct (_writeBatch ru) as [wb|]; [|reflexivity].
  destruct (0 <? Count wb)%nat eqn:Hcount.
  - destruct (last_op cf key (wb_batch wb)) as [e|] eqn:Hlast.
    + destruct (wbwi_Seek_latest _ _ _ _ Hwf Hlast) as [-> ->].
      destruct (w_type e); by step.
    + destruct (wbwi_Seek cf key wb) as [e|] eqn:Hseek; [|reflexivity].
      by rewrite (wbwi_Seek_absent _ _ _ _ Hwf Hlast Hseek).
  - apply Nat.ltb_ge in Hcount. unfold Count in Hcount.
    destruct (wb_batch wb); [reflexivity|cbn in Hcount; lia].
Qed.

(** [NewIterator]: fatal on the store's own default handle; on any other
    handle an iterator over the handle's column family, based on the
    snapshot. *)
Lemma NewIterator_run ru w h :
  run (NewIterator h) (ru, w) =
  if same_handle h (DefaultColumnFamilyHandle (w_db w)) then Fatal (ru, w)
  else
    match _snapshot ru with
    | Some s =>
        Ok (overlay ru (GetID h) (BaseIterator (snap_data s) (GetID h)))
           (ru, add_trace [EvNewIterator (Some (snap_id s)) (GetID h)] w)
    | None =>
        Ok (overlay ru (GetID h) (BaseIterator (db_data (w_db w)) (GetID h)))
           (fst (acquire ru w),
            add_trace [EvNewIterator (Some (db_next_snapshot (w_db w))) (GetID h)]
                      (snd (acquire ru w)))
    end.
Proof.
  unfold NewIterator. step.
  destruct (same_handle h (DefaultColumnFamilyHandle (w_db w))); cbn [negb]; step;
    [reflexivity|].
  rewrite snapshot_run. unfold db_NewIterator, overlay, acquire.
  destruct (_snapshot ru); step; cbn [set_snapshot _writeBatch];
    (destruct (_writeBatch ru) as [wb|]; [destruct (0 <? Count wb)%nat|]);
    step; reflexivity.
Qed.

(** ** Every operation, one by one *)

Ltac exec_unfold :=
  cbn [exec];
  unfold beginUnitOfWork, endUnitOfWork, awaitCommit, commitAndRestart,
    writeBatch_Put, writeBatch_Delete, writeBatch, setOplogReadTill, registerChange,
    Get, NewIterator, incrementCounter, getDeltaCounter, destroy, db_Get, db_NewIterator;
  cbv zeta.

Ltac exec_crush :=
  repeat first
    [ progress step
    | rewrite _abort_run
    | rewrite snapshot_run
    | match goal with
      | |- context [ run (invariant ?b) _ ] => destruct b eqn:?
      | |- context [ match ?x with _ => _ end ] =>
          match x with
          | context [ match _ with _ => _ end ] => fail 1
          | context [ @run ] => fail 1
          | context [ @final ] => fail 1
          | _ => destruct x eqn:?
          end
      end ].

Lemma wbwi_add_wf e wb : wbwi_wf wb -> wbwi_wf (wbwi_add e wb).
Proof.
  unfold wbwi_wf, wbwi_add. cbn [wb_batch wb_index]. intros ->.
  by rewrite build_index_snoc.
Qed.

Lemma flush_wf l acc : wbwi_wf acc.1 -> wbwi_wf (flush l acc).1.
Proof.
  revert acc; induction l as [|p l IH]; intros acc Hwf; unfold flush in *; cbn [fold_left].
  - done.
  - apply IH. unfold flush_step, wbwi_Put. cbn [fst]. by apply wbwi_add_wf.
Qed.

Lemma commitUnitOfWork_final ru w :
  _depth ru <= 1 ->
  let s' := final (run commitUnitOfWork (ru, w)) in
  match _writeBatch ru with
  | None =>
      _writeBatch (fst s') = None /\ _deltaCounters (fst s') = _deltaCounters ru /\
      _snapshot (fst s') = None
  | Some wb =>
      (_writeBatch (fst s') = None /\ _deltaCounters (fst s') = ∅ /\
       _snapshot (fst s') = None) \/
      (_writeBatch (fst s') =
         Some (flush (map_to_list (_deltaCounters ru)) (wb, w_counters w)).1 /\
       _deltaCounters (fst s') = _deltaCounters ru /\
       _snapshot (fst s') = _snapshot ru /\
       db_write_fails (w_db w) = true)
  end.
Proof.
  intros Hd. cbv zeta. rewrite (commitUnitOfWork_outermost _ _ Hd).
  destruct (_writeBatch ru) as [wb|] eqn:Hwb.
  - rewrite bool_decide_eq_true_2 by eauto.
    rewrite (_commit_run ru w wb Hwb). cbv zeta.
    destruct (Count _ =? 0)%nat; [|destruct (db_write_fails (w_db w))]; cbn; auto 10.
  - rewrite bool_decide_eq_false_2 by (intros [? ?]; discriminate).
    rewrite run_skip. cbn. auto.
Qed.

Lemma exec_preserves_wf op ru w :
  ru_wf ru -> ru_wf (fst (final (run (exec op) (ru, w)))).
Proof.
  intros Hwf.
  assert (forall ru0 w0, ru_wf ru0 -> ru_wf (fst (final (run commitUnitOfWork (ru0, w0)))))
    as Hcommit.
  { clear. unfold ru_wf. intros ru w Hwf.
    destruct (Z_le_gt_dec (_depth ru) 1) as [Hd|Hd].
    - pose proof (commitUnitOfWork_final ru w Hd) as H. cbv zeta in H.
      destruct (_writeBatch ru) as [wb|].
      + destruct H as [(-> & _)|(-> & _)]; [done|]. by apply flush_wf.
      + by destruct H as (-> & _).
    - rewrite commitUnitOfWork_nested by lia. done. }
  destruct op; try (apply Hcommit; exact Hwf);
    exec_unfold; exec_crush; try (apply Hcommit; exact Hwf);
    unfold ru_wf in *; cbn; try done;
    try (apply wbwi_add_wf);
    try (match goal with E : _writeBatch ru = _ |- _ => rewrite E in Hwf end; done).
Qed.

Lemma exec_cleared_together op ru w :
  cleared_together ru (fst (final (run (exec op) (ru, w)))).
Proof.
  assert (forall ru0 w0,
            cleared_together ru0 (fst (final (run commitUnitOfWork (ru0, w0))))) as Hcommit.
  { clear. intros ru w. unfold cleared_together.
    destruct (Z_le_gt_dec (_depth ru) 1) as [Hd|Hd].
    - pose proof (commitUnitOfWork_final ru w Hd) as H. cbv zeta in H.
      destruct (_writeBatch ru) as [wb|].
      + destruct H as [(-> & -> & _)|(-> & -> & _)]; split; intros; congruence.
      + destruct H as (-> & -> & _). split; [intros [? ?]|]; congruence.
    - rewrite commitUnitOfWork_nested by lia. cbn.
      split; [intros [? ?]|]; congruence. }
  destruct op; try apply Hcommit; exec_unfold; exec_crush; try apply Hcommit;
    unfold cleared_together; cbn; (split; [intros [? ?]|intros ? Hdc]);
    try congruence; try (by apply insert_non_empty in Hdc).
Qed.

(** The trace is a log: an operation only adds to its end, which is what
    makes [events_of] the list of the calls it made. *)
Lemma commitUnitOfWork_trace_grows ru w :
  exists tr, w_trace (snd (final (run commitUnitOfWork (ru, w)))) = w_trace w ++ tr.
Proof.
  destruct (Z_le_gt_dec (_depth ru) 1) as [Hd|Hd].
  - rewrite (commitUnitOfWork_outermost _ _ Hd).
    destruct (_writeBatch ru) as [wb|] eqn:Hwb.
    + rewrite bool_decide_eq_true_2 by eauto.
      rewrite (_commit_run ru w wb Hwb). cbv zeta.
      destruct (Count _ =? 0)%nat; [|destruct (db_write_fails (w_db w))];
        cbn [final fst snd]; rewrite ?release_trace; cbn [add_trace w_trace];
        rewrite <- ?app_assoc; eauto.
    + rewrite bool_decide_eq_false_2 by (intros [? ?]; discriminate).
      rewrite run_skip. cbn [final fst snd]. rewrite release_trace.
      cbn [add_trace w_trace]. rewrite <- ?app_assoc. eauto.
  - rewrite commitUnitOfWork_nested by lia. exists []. by rewrite app_nil_r.
Qed.

Lemma exec_trace_grows op ru w :
  exists tr, w_trace (snd (final (run (exec op) (ru, w)))) = w_trace w ++ tr.
Proof.
  pose proof (commitUnitOfWork_trace_grows ru w) as Hcommit.
  destruct op; try exact Hcommit; exec_unfold; exec_crush; try exact Hcommit;
    unfold acquire; cbn [final fst snd]; rewrite ?release_trace;
    cbn [add_trace w_trace set_depth _snapshot]; rewrite <- ?app_assoc;
    first [ by eexists | exists []; by rewrite app_nil_r ].
Qed.

Lemma new_unit_wf durable : ru_wf (RocksRecoveryUnit_new durable).
Proof. exact I. Qed.

(** Every state a recovery unit reaches from its construction has a write
    batch whose index is the one of its operations. *)
Lemma reachable_wf ops durable w :
  ru_wf (fst (final (run (exec_all ops) (RocksRecoveryUnit_new durable, w)))).
Proof.
  pose proof (new_unit_wf durable) as Hwf.
  revert Hwf. generalize (RocksRecoveryUnit_new durable) as ru. revert w.
  induction ops as [|op ops IH]; intros w ru Hwf; cbn [exec_all].
  - by rewrite run_skip.
  - rewrite run_bind.
    pose proof (exec_preserves_wf op ru w Hwf) as Hstep.
    destruct (run (exec op) (ru, w)) as [[] [ru1 w1]|[ru1 w1]]; cbn [final fst] in *.
    + by apply IH.
    + done.
Qed.

(** ** The snapshot along a unit of work *)

Lemma no_snapshot_events_commits cs : no_snapshot_events (map EvChangeCommit cs).
Proof. unfold no_snapshot_events. induction cs; cbn; by constructor. Qed.

Lemma no_snapshot_events_rollbacks cs : no_snapshot_events (map EvChangeRollback cs).
Proof. unfold no_snapshot_events. induction cs; cbn; by constructor. Qed.

Lemma no_snapshot_events_finish ru :
  _snapshot ru = None -> no_snapshot_events (finish_events ru).
Proof.
  unfold finish_events. intros ->. rewrite app_nil_r. apply no_snapshot_events_commits.
Qed.

(** An operation that does not end the unit of work keeps the snapshot that
    is held and asks the store for none. *)
Lemma in_unit_step op ru w s s1 :
  terminal op ru = false -> _snapshot ru = Some s ->
  run (exec op) (ru, w) = Ok tt s1 ->
  _snapshot (fst s1) = Some s /\
  exists tr, w_trace (snd s1) = w_trace w ++ tr /\ no_snapshot_events tr.
Proof.
  intros Ht Hs.
  destruct op; cbn [terminal] in Ht; try discriminate.
  2:{ cbn [exec]. rewrite commitUnitOfWork_nested.
      - intros [= <-]. split; [done|]. exists []. split; [by rewrite app_nil_r|constructor].
      - apply Z.ltb_lt. by destruct (1 <? _depth ru). }
  2:{ exec_unfold. step. cbn [set_depth _depth]. rewrite Ht. step.
      intros [= <-]. split; [done|]. exists []. split; [by rewrite app_nil_r|constructor]. }
  all: exec_unfold; exec_crush; intros [= <-]; simplify_eq; cbn;
    (split; [congruence|]);
    first [ exists []; split; [by rewrite app_nil_r|constructor]
          | eexists; split; [reflexivity|by repeat constructor] ].
Qed.

Lemma in_unit_keeps_snapshot ops s0 s2 s :
  in_unit ops s0 s2 -> _snapshot (fst s0) = Some s ->
  _snapshot (fst s2) = Some s /\
  exists tr, w_trace (snd s2) = w_trace (snd s0) ++ tr /\ no_snapshot_events tr.
Proof.
  induction 1 as [s0|op ops [ru w] s1 s2 Ht Hrun _ IH]; intros Hs.
  - split; [done|]. exists []. split; [by rewrite app_nil_r|constructor].
  - destruct (in_unit_step op ru w s s1 Ht Hs Hrun) as (Hs1 & tr1 & Htr1 & Hn1).
    destruct (IH Hs1) as (Hs2 & tr2 & Htr2 & Hn2).
    split; [done|]. exists (tr1 ++ tr2). split.
    + cbn [snd]. by rewrite Htr2, Htr1, app_assoc.
    + by apply Forall_app.
Qed.

Lemma commitUnitOfWork_acquires_in_order ru w :
  _snapshot ru = None -> acquires_in_order ru w commitUnitOfWork.
Proof.
  intros Hs. unfold acquires_in_order.
  destruct (Z_le_gt_dec (_depth ru) 1) as [Hd|Hd].
  - pose proof (commitUnitOfWork_final ru w Hd) as H. cbv zeta in H.
    assert (_snapshot (fst (final (run commitUnitOfWork (ru, w)))) = None) as ->.
    { destruct (_writeBatch ru); [destruct H as [(_ & _ & ->)|(_ & _ & -> & _)]|
                                   destruct H as (_ & _ & ->)]; done. }
    pose proof (no_snapshot_events_finish ru Hs) as Hfin.
    destruct (commitUnitOfWork_shape ru w Hd); [done| |].
    + by repeat constructor.
    + by repeat constructor.
  - unfold events_of. rewrite commitUnitOfWork_nested by lia. cbn [final fst snd].
    rewrite Hs, drop_all. constructor.
Qed.

Lemma _abort_acquires_in_order ru w :
  _snapshot ru = None -> acquires_in_order ru w _abort.
Proof.
  intros Hs. unfold acquires_in_order, events_of. rewrite _abort_run.
  cbn [final fst snd _snapshot]. unfold release. rewrite Hs.
  cbn [add_trace w_trace]. rewrite drop_app_length.
  apply Forall_app. split; [apply no_snapshot_events_rollbacks|by repeat constructor].
Qed.

Lemma exec_acquires_in_order op ru w :
  _snapshot ru = None -> acquires_in_order ru w (exec op).
Proof.
  intros Hs.
  pose proof (commitUnitOfWork_acquires_in_order ru w Hs) as Hcommit.
  destruct op; try exact Hcommit; try (by apply _abort_acquires_in_order).
  2:{ (* endUnitOfWork *)
      cbn [exec]. unfold endUnitOfWork.
      destruct (_depth ru - 1 =? 0) eqn:Hz.
      - pose proof (_abort_acquires_in_order (set_depth (_depth ru - 1) ru) w Hs) as H.
        unfold acquires_in_order, events_of in *. revert H. step.
        cbn [set_depth _depth]. by rewrite Hz.
      - unfold acquires_in_order, events_of. step. cbn [set_depth _depth].
        rewrite Hz. step. cbn [final fst snd set_depth _snapshot].
        rewrite Hs, drop_all. constructor. }
  3:{ (* commitAndRestart *)
      cbn [exec]. unfold commitAndRestart.
      unfold acquires_in_order, events_of in *. step.
      destruct (_depth ru =? 0); step; [exact Hcommit|].
      cbn [final fst snd]. rewrite Hs, drop_all. constructor. }
  all: unfold acquires_in_order, events_of; exec_unfold; exec_crush; simplify_eq;
    unfold acquire; cbn -[drop length app];
    rewrite ?Hs, <- ?app_assoc, ?drop_app_length, ?drop_all;
    first [ constructor
          | eexists; split; [reflexivity|by repeat constructor] ].
Qed.

(** ** Counters: arithmetic, encoding, and the flush at commit *)

Lemma wrap64_id z : LLONG_MIN <= z <= LLONG_MAX -> wrap64 z = z.
Proof.
  unfold LLONG_MIN, LLONG_MAX, wrap64. intros H.
  rewrite Z.mod_small; lia.
Qed.

Lemma wrap64_mod z : wrap64 (z mod 2 ^ 64) = wrap64 z.
Proof.
  unfold wrap64. by rewrite Zplus_mod_idemp_l.
Qed.

Lemma le_value_bytes n z : 0 <= z -> le_value (le_bytes n z) = z mod 256 ^ Z.of_nat n.
Proof.
  revert z; induction n as [|n IH]; intros z Hz.
  - cbn. by rewrite Z.mod_1_r.
  - cbn [le_bytes le_value].
    rewrite N_ascii_embedding.
    2:{ apply N2Z.inj_lt. rewrite Z2N.id by (apply Z.mod_pos_bound; lia).
        change (Z.of_N 256) with 256. apply Z.mod_pos_bound. lia. }
    rewrite Z2N.id by (apply Z.mod_pos_bound; lia).
    rewrite IH by (apply Z.div_pos; lia).
    rewrite Nat2Z.inj_succ, Z.pow_succ_r by lia.
    rewrite Z.rem_mul_r; [reflexivity|lia|]. apply Z.pow_pos_nonneg; lia.
Qed.

(** The persisted bytes hold the counter: decoding gives it back. *)
Lemma decode_encode_ll z : decode_ll (encode_ll z) = wrap64 z.
Proof.
  unfold decode_ll, encode_ll.
  rewrite le_value_bytes by (apply Z.mod_pos_bound; lia).
  change (256 ^ Z.of_nat 8) with (2 ^ 64).
  rewrite Z.mod_mod by lia. apply wrap64_mod.
Qed.

Lemma apply_batch_snoc ops e d :
  apply_batch (ops ++ [e]) d = apply_entry e (apply_batch ops d).
Proof. unfold apply_batch. by rewrite fold_left_app. Qed.

(** A batch leaves under a key what its latest operation on the key says. *)
Lemma apply_batch_lookup ops d cf key :
  apply_batch ops d !! (cf, key) =
  match last_op cf key ops with
  | Some e =>
      match w_type e with
      | kPutRecord => Some (w_value e)
      | kDeleteRecord => None
      end
  | None => d !! (cf, key)
  end.
Proof.
  induction ops as [|e ops IH] using rev_ind; [reflexivity|].
  rewrite apply_batch_snoc, last_op_snoc. unfold apply_entry.
  destruct (same_slot cf key (w_cf e) (w_key e)) eqn:Hs.
  - apply same_slot_spec in Hs as [-> ->].
    destruct (w_type e); [apply lookup_insert_eq|apply lookup_delete_eq].
  - assert ((w_cf e, w_key e) <> (cf, key)) as Hne.
    { intros [= <- <-]. rewrite (proj2 (same_slot_spec _ _ _ _)) in Hs; done. }
    destruct (w_type e); [rewrite lookup_insert_ne by done|rewrite lookup_delete_ne by done];
      exact IH.
Qed.

Lemma flush_cons p l acc : flush (p :: l) acc = flush l (flush_step acc p).
Proof. reflexivity. Qed.

(** Entries on other keys and other counters leave a key's latest operation
    and a counter's value alone. *)
Lemma flush_others l wb cs r key :
  (forall k c, (k, c) ∈ l -> k <> key /\ _value c <> r) ->
  (flush l (wb, cs)).2 !! r = cs !! r /\
  last_op 0 key (wb_batch (flush l (wb, cs)).1) = last_op 0 key (wb_batch wb).
Proof.
  revert wb cs; induction l as [|[k c] l IH]; intros wb cs Hl; [done|].
  rewrite flush_cons. unfold flush_step. cbn [fst snd].
  destruct (Hl k c) as [Hk Hc]; [by left|].
  destruct (IH (wbwi_Put 0 k (encode_ll (wrap64 (default 0 (cs !! _value c) + _delta c))) wb)
               (<[_value c := wrap64 (default 0 (cs !! _value c) + _delta c)]> cs))
    as [-> ->].
  { intros k' c' Hin. apply Hl. by right. }
  split; [by rewrite lookup_insert_ne|].
  unfold wbwi_Put, wbwi_add. cbn [wb_batch]. rewrite last_op_snoc. cbn [w_cf w_key].
  destruct (same_slot 0 key 0 k) eqn:Hs; [|done].
  apply same_slot_spec in Hs as [_ ->]. done.
Qed.

(** The one entry of a key, alone on its counter, adds its delta to the
    counter and leaves the new total as the key's latest operation. *)
Lemma flush_counter l wb cs r key d :
  NoDup l.*1 -> (key, mkCounter r d) ∈ l ->
  (forall k c, (k, c) ∈ l -> k <> key -> _value c <> r) ->
  let v := wrap64 (default 0 (cs !! r) + d) in
  (flush l (wb, cs)).2 !! r = Some v /\
  last_op 0 key (wb_batch (flush l (wb, cs)).1) =
    Some (mkEntry kPutRecord 0 key (encode_ll v)).
Proof.
  revert wb cs; induction l as [|[k c] l IH]; intros wb cs Hnd Hin Hl v.
  - by apply not_elem_of_nil in Hin.
  - rewrite flush_cons. unfold flush_step. cbn [fst snd].
    apply NoDup_cons in Hnd as [Hk Hnd]. cbn [fmap list_fmap fst] in Hk.
    apply elem_of_cons in Hin as [[= <- <-]|Hin].
    + cbn [_value _delta]. fold v.
      destruct (flush_others l (wbwi_Put 0 key (encode_ll v) wb) (<[r := v]> cs) r key)
        as [-> ->].
      { intros k' c' Hin'. assert (k' <> key) as Hne.
        { intros ->. apply Hk. apply list_elem_of_fmap. by exists (key, c'). }
        split; [done|]. apply (Hl k' c'); [by right|done]. }
      split; [apply lookup_insert_eq|].
      unfold wbwi_Put, wbwi_add. cbn [wb_batch]. rewrite last_op_snoc. cbn [w_cf w_key].
      by rewrite (proj2 (same_slot_spec 0 key 0 key)).
    + assert (k <> key) as Hne.
      { intros ->. apply Hk. apply list_elem_of_fmap. by exists (key, mkCounter r d). }
      assert (_value c <> r) as Hr by (apply (Hl k c); [by left|done]).
      destruct (IH (wbwi_Put 0 k (encode_ll (wrap64 (default 0 (cs !! _value c) + _delta c))) wb)
                   (<[_value c := wrap64 (default 0 (cs !! _value c) + _delta c)]> cs)
                   Hnd Hin) as [E1 E2].
      { intros k' c' Hin'. apply (Hl k' c'). by right. }
      rewrite lookup_insert_ne in E1, E2 by done. by split.
Qed.

Lemma increment_twice_run ru w key r d1 d2 :
  d1 <> 0 -> d2 <> 0 -> _deltaCounters ru !! key = None ->
  run (incrementCounter key r d1;; incrementCounter key r d2) (ru, w) =
  Ok tt (set_deltaCounters (<[key := mkCounter r (wrap64 (d1 + d2))]> (_deltaCounters ru)) ru, w).
Proof.
  intros H1 H2 Hnone. unfold incrementCounter.
  apply Z.eqb_neq in H1, H2. rewrite H1, H2. step. rewrite Hnone. step.
  cbn [set_deltaCounters _deltaCounters]. rewrite lookup_insert_eq. step.
  cbn [_value _delta set_deltaCounters]. rewrite insert_insert_eq.
  by destruct ru.
Qed.

(** Whatever [_durable] is, a batch reaches the store with the default write
    options. *)
Lemma commit_write_options ru w e :
  e ∈ events_of commitUnitOfWork (ru, w) -> is_write_event e = true ->
  exists ops st, e = EvWrite WriteOptions_default ops st.
Proof.
  intros Hin He.
  destruct (Z_le_gt_dec (_depth ru) 1) as [Hd|Hd].
  - assert (forall x, x ∈ finish_events ru -> is_write_event x = false) as Hfin.
    { intros x. unfold finish_events. rewrite elem_of_app, list_elem_of_fmap.
      intros [(c & -> & _)|Hx]; [done|].
      destruct (_snapshot ru); [apply list_elem_of_singleton in Hx as ->; done|].
      by apply not_elem_of_nil in Hx. }
    destruct (commitUnitOfWork_shape ru w Hd) as [_|wb ops _ _ _ _|wb ops _ _ _ _].
    + rewrite (Hfin _ Hin) in He. discriminate.
    + apply elem_of_cons in Hin as [->|Hin]; [eauto|].
      apply list_elem_of_singleton in Hin as ->. discriminate.
    + apply elem_of_cons in Hin as [->|Hin]; [eauto|].
      apply elem_of_cons in Hin as [->|Hin]; [discriminate|].
      rewrite (Hfin _ Hin) in He. discriminate.
  - unfold events_of in Hin. rewrite commitUnitOfWork_nested in Hin by lia.
    cbn in Hin. rewrite drop_all in Hin. by apply not_elem_of_nil in Hin.
Qed.

(** ** The properties of the recovery unit *)

(** C6 (as stated, refuted): the claim's last clause says that only a
    [commitUnitOfWork] at depth 1 carries out the physical commit.  A unit at
    depth 0 with one buffered put, committed through [commitAndRestart] (which
    requires depth 0), writes the batch to the store. *)
Lemma C6_commit_at_depth_zero :
  let s0 := final (run (writeBatch_Put 1 "k" "v") (RocksRecoveryUnit_new true, empty_world)) in
  _depth (fst s0) = 0 /\
  events_of commitAndRestart s0 =
    [EvWrite WriteOptions_default [mkEntry kPutRecord 1 "k" "v"] StatusOK; EvTxnCommit] /\
  events_of commitUnitOfWork s0 = events_of commitAndRestart s0 /\
  db_data (w_db (snd (final (run commitUnitOfWork s0)))) !! (1%nat, "k") = Some "v".
Proof. vm_compute. repeat split; reflexivity. Qed.

(** C6 (amended): at every depth above 1 [commitUnitOfWork] returns with the
    recovery unit (buffered writes, counter deltas, changes, snapshot) and the
    world (store, counters, trace) exactly as they were; a call that writes to
    the store is at depth 1 or below; and at depth 1 or below a non-empty
    write batch is written. *)
Theorem C6_nested_commit_is_noop (ru : RocksRecoveryUnit) (w : World) :
  (1 < _depth ru -> run commitUnitOfWork (ru, w) = Ok tt (ru, w)) /\
  ((exists e, e ∈ events_of commitUnitOfWork (ru, w) /\ is_write_event e = true) ->
   _depth ru <= 1) /\
  (_depth ru <= 1 ->
   (exists wb, _writeBatch ru = Some wb /\ Count wb <> 0%nat) ->
   exists e, e ∈ events_of commitUnitOfWork (ru, w) /\ is_write_event e = true).
Proof.
  split; [apply commitUnitOfWork_nested|split].
  - intros (e & He & _). destruct (Z_le_gt_dec (_depth ru) 1) as [|Hgt]; [done|].
    exfalso. unfold events_of in He.
    rewrite commitUnitOfWork_nested in He by lia. cbn in He.
    rewrite drop_all in He. by apply not_elem_of_nil in He.
  - intros Hd (wb & Hwb & Hn).
    destruct (commitUnitOfWork_shape ru w Hd) as [Hnone| |].
    + destruct (Hnone _ Hwb). contradiction.
    + eexists; split; [apply list_elem_of_here|reflexivity].
    + eexists; split; [apply list_elem_of_here|reflexivity].
Qed.

Lemma C6_nested_commit_is_noop_witness :
  let ru := set_depth 2 (set_writeBatch (Some (wbwi_Put 1 "k" "v" wbwi_new))
                           (RocksRecoveryUnit_new true)) in
  1 < _depth ru /\ run commitUnitOfWork (ru, empty_world) = Ok tt (ru, empty_world).
Proof.
  split; [reflexivity|].
  apply (proj1 (C6_nested_commit_is_noop _ empty_world)). reflexivity.
Defined.

(** C10 (as stated, refuted): the invariant of [NewIterator] compares handle
    pointers.  A request on the default column family through a handle object
    other than the store's own (address 5, column family 0) passes it and gets
    an iterator over the default column family. *)
Lemma C10_iterator_on_default_family_through_another_handle :
  let h := mkHandlePtr 5 0 in
  GetID h = DefaultColumnFamily empty_db /\
  GetID h = GetID (DefaultColumnFamilyHandle empty_db) /\
  exists s', run (NewIterator h) (RocksRecoveryUnit_new true, empty_world)
             = Ok (BaseIterator ∅ (DefaultColumnFamily empty_db)) s'.
Proof.
  cbv zeta. split; [reflexivity|]. split; [reflexivity|].
  eexists. vm_compute. reflexivity.
Qed.

(** C10 (amended): [NewIterator] refuses one handle, the pointer that the
    store's [DefaultColumnFamily()] returns: a request with it dies on the
    invariant before anything else happens.  A request with any other handle
    pointer, whatever column family the handle is on, returns an iterator over
    that column family. *)
Theorem C10_NewIterator_refuses_the_default_handle
    (ru : RocksRecoveryUnit) (w : World) (h : ColumnFamilyHandlePtr) :
  (address h = address (DefaultColumnFamilyHandle (w_db w)) ->
   run (NewIterator h) (ru, w) = Fatal (ru, w)) /\
  (address h <> address (DefaultColumnFamilyHandle (w_db w)) ->
   exists it s', run (NewIterator h) (ru, w) = Ok it s' /\ iterator_family it = GetID h).
Proof.
  rewrite NewIterator_run. unfold same_handle. split; intros Hh.
  - by rewrite (proj2 (Nat.eqb_eq _ _) Hh).
  - rewrite (proj2 (Nat.eqb_neq _ _) Hh).
    destruct (_snapshot ru); (eexists; eexists; split; [reflexivity|]);
      unfold overlay;
      (destruct (_writeBatch ru) as [wb|]; [destruct (0 <? Count wb)%nat|]); reflexivity.
Qed.

Lemma C10_NewIterator_refuses_the_default_handle_witness :
  run (NewIterator (DefaultColumnFamilyHandle empty_db)) (RocksRecoveryUnit_new true, empty_world)
    = Fatal (RocksRecoveryUnit_new true, empty_world) /\
  exists it s', run (NewIterator (mkHandlePtr 7 1)) (RocksRecoveryUnit_new true, empty_world)
                = Ok it s' /\ iterator_family it = 1%nat.
Proof.
  split.
  - apply (proj1 (C10_NewIterator_refuses_the_default_handle
                    (RocksRecoveryUnit_new true) empty_world
                    (DefaultColumnFamilyHandle empty_db))).
    reflexivity.
  - apply (proj2 (C10_NewIterator_refuses_the_default_handle
                    (RocksRecoveryUnit_new true) empty_world (mkHandlePtr 7 1))).
    cbn. lia.
Defined.

(** C7: after the changes [cs] are registered in that order, a commit that is
    carried out calls [commit()] on each of them in that order, an abort calls
    [rollback()] on each of them in the reverse order, and both leave the list
    of changes empty. *)
Theorem C7_changes_commit_in_order_rollback_in_reverse
    (cs : list Change) (ru : RocksRecoveryUnit) (w : World) :
  _changes ru = [] ->
  exists s1,
    run (register_all cs) (ru, w) = Ok tt s1 /\
    _changes (fst s1) = cs /\
    (_depth ru <= 1 -> db_write_fails (w_db w) = false ->
     exists s2, run commitUnitOfWork s1 = Ok tt s2 /\
                change_events (events_of commitUnitOfWork s1) = map EvChangeCommit cs /\
                _changes (fst s2) = []) /\
    (exists s2, run _abort s1 = Ok tt s2 /\
                change_events (events_of _abort s1) = map EvChangeRollback (rev cs) /\
                _changes (fst s2) = []).
Proof.
  intros Hcs. rewrite register_all_run, Hcs. cbn [app].
  eexists; split; [reflexivity|]. cbn [fst].
  split; [by destruct ru|]. split.
  - intros Hd Hf.
    destruct (commitUnitOfWork_ok (set_changes cs ru) w) as (s2 & Hrun & Hch & _);
      [by destruct ru|done|].
    exists s2. split; [done|]. split; [|done].
    destruct (commitUnitOfWork_shape (set_changes cs ru) w) as [_|? ? _ _ _ Hf'|? ? _ _ _ _];
      [by destruct ru| | |].
    + rewrite change_events_finish. by destruct ru.
    + cbn in Hf'. congruence.
    + cbn [write_events app change_events List.filter is_change_event].
      fold (change_events (finish_events (set_changes cs ru))).
      rewrite change_events_finish. by destruct ru.
  - rewrite _abort_run. eexists; split; [reflexivity|]. split; [|reflexivity].
    erewrite events_of_intro.
    2:{ rewrite _abort_run. cbn [final fst snd]. rewrite release_trace.
        cbn [add_trace w_trace].
        rewrite <- app_assoc. reflexivity. }
    unfold change_events. rewrite !List.filter_app.
    fold (change_events (map EvChangeRollback (rev (_changes (set_changes cs ru))))).
    rewrite change_events_rollbacks.
    replace (_changes (set_changes cs ru)) with cs by (by destruct ru).
    destruct (_snapshot (set_changes cs ru)); cbn; by rewrite !app_nil_r.
Qed.

Lemma C7_changes_commit_in_order_rollback_in_reverse_witness :
  let ru := set_depth 1 (RocksRecoveryUnit_new true) in
  _changes ru = [] /\ _depth ru <= 1 /\ db_write_fails (w_db empty_world) = false /\
  exists s1,
    run (register_all [4; 5; 6]%nat) (ru, empty_world) = Ok tt s1 /\
    change_events (events_of commitUnitOfWork s1)
      = [EvChangeCommit 4; EvChangeCommit 5; EvChangeCommit 6] /\
    change_events (events_of _abort s1)
      = [EvChangeRollback 6; EvChangeRollback 5; EvChangeRollback 4].
Proof.
  intros ru. split; [reflexivity|]. split; [cbn; lia|]. split; [reflexivity|].
  destruct (C7_changes_commit_in_order_rollback_in_reverse [4; 5; 6]%nat ru empty_world)
    as (s1 & Hreg & _ & Hcommit & Habort); [reflexivity|].
  destruct (Hcommit ltac:(cbn; lia) ltac:(reflexivity)) as (s2 & _ & Hc & _).
  destruct Habort as (s3 & _ & Ha & _).
  exists s1. split; [exact Hreg|]. split; [exact Hc|exact Ha].
Defined.

(** C1 (the code at the failing input): a recovery unit built with
    [durable = false] commits one buffered put; the batch reaches the store
    with the default write options, write-ahead log enabled. *)
Theorem C1_commit_writes_with_default_options :
  let s1 := final (run (exec_all [OpBeginUnitOfWork; OpPut 1 "k" "v"])
                       (RocksRecoveryUnit_new false, empty_world)) in
  _durable (fst s1) = false /\
  events_of commitUnitOfWork s1 =
    [EvWrite WriteOptions_default [mkEntry kPutRecord 1 "k" "v"] StatusOK; EvTxnCommit] /\
  disableWAL WriteOptions_default = false.
Proof. vm_compute. repeat split; reflexivity. Qed.

(** C5 (as stated, refuted): a unit of work that only reads is committed at
    depth 1; the commit releases the snapshot and the conflict tracker's
    [commit()] is not called. *)
Lemma C5_commit_without_tracker_commit :
  let s1 := final (run (exec_all [OpBeginUnitOfWork; OpGet 1 "k"])
                       (RocksRecoveryUnit_new true, empty_world)) in
  _depth (fst s1) = 1 /\
  events_of commitUnitOfWork s1 = [EvReleaseSnapshot 0] /\
  count_occ Event_eq_dec (events_of commitUnitOfWork s1) EvTxnCommit = 0%nat.
Proof. vm_compute. repeat split; reflexivity. Qed.

(** C5 (amended): a commit that is carried out calls the conflict tracker's
    [commit()] at most once; the call is made exactly when a write batch
    exists that holds an operation or receives a counter delta and the store
    accepts it; and the one event before the call is then the store's
    successful write of that batch. *)
Theorem C5_tracker_commit_follows_successful_write
    (ru : RocksRecoveryUnit) (w : World) :
  _depth ru <= 1 ->
  let tr := events_of commitUnitOfWork (ru, w) in
  (count_occ Event_eq_dec tr EvTxnCommit <= 1)%nat /\
  (count_occ Event_eq_dec tr EvTxnCommit = 1%nat <->
   (exists wb, _writeBatch ru = Some wb /\ (Count wb <> 0%nat \/ _deltaCounters ru <> ∅)) /\
   db_write_fails (w_db w) = false) /\
  (forall pre post, tr = pre ++ EvTxnCommit :: post ->
     exists ops, ops <> [] /\ pre = [EvWrite WriteOptions_default ops StatusOK]).
Proof.
  intros Hd tr. subst tr.
  pose proof (finish_events_no_commit ru) as Hfin.
  destruct (commitUnitOfWork_shape ru w Hd) as [Hnone|wb ops Hwb Hp Hne Hf|wb ops Hwb Hp Hne Hf].
  - rewrite (count_occ_not_elem _ _ Hfin). split; [lia|]. split.
    + split; [lia|]. intros [(wb & Hwb & [Hp|Hp]) _];
        destruct (Hnone _ Hwb); contradiction.
    + intros pre post E. exfalso. apply Hfin. rewrite E.
      apply elem_of_app. right. apply list_elem_of_here.
  - cbn. split; [lia|]. split.
    + split; [lia|]. intros [_ ?]. congruence.
    + intros [|a [|b [|c pre]]] post E; cbn in E; inversion E.
  - cbn [write_events app count_occ].
    destruct (Event_eq_dec _ EvTxnCommit) as [|_]; [discriminate|].
    destruct (Event_eq_dec EvTxnCommit EvTxnCommit) as [_|]; [|done].
    rewrite (count_occ_not_elem _ _ Hfin). split; [lia|]. split.
    + split; [eauto|done].
    + intros [|a [|b pre]] post E; cbn in E.
      * discriminate.
      * injection E as <- _. eauto.
      * injection E as _ _ E. exfalso. apply Hfin. rewrite E.
        apply elem_of_app. right. apply list_elem_of_here.
Qed.

Lemma C5_tracker_commit_follows_successful_write_witness :
  let ru := set_depth 1 (set_writeBatch (Some (wbwi_Put 1 "k" "v" wbwi_new))
                           (RocksRecoveryUnit_new true)) in
  _depth ru <= 1 /\
  count_occ Event_eq_dec (events_of commitUnitOfWork (ru, empty_world)) EvTxnCommit = 1%nat.
Proof.
  intros ru. split; [cbn; lia|].
  apply (proj1 (proj2 (C5_tracker_commit_follows_successful_write ru empty_world
                         ltac:(cbn; lia)))).
  split; [|reflexivity].
  eexists; split; [reflexivity|]. left. cbn. lia.
Defined.

(** C9 (as stated, refuted): a unit of work puts one key, commits at depth 1
    and ends; the [endUnitOfWork] that brings the depth to 0 calls the
    conflict tracker's [abort()]. *)
Lemma C9_end_after_commit_calls_tracker_abort :
  let s1 := final (run (exec_all [OpBeginUnitOfWork; OpPut 1 "k" "v"; OpCommitUnitOfWork])
                       (RocksRecoveryUnit_new true, empty_world)) in
  _depth (fst s1) = 1 /\
  events_of endUnitOfWork s1 = [EvTxnAbort].
Proof. vm_compute. split; reflexivity. Qed.

(** C9 (amended): after a commit carried out at depth 1, the [endUnitOfWork]
    that brings the depth to 0 rolls back no change, writes nothing to the
    store, releases no snapshot and leaves the shared counters as they are;
    its one call to a collaborator is the conflict tracker's [abort()].  The
    recovery unit changes only in its depth, now 0, when a write batch existed
    at the commit. *)
Theorem C9_end_after_commit_only_notifies_abort
    (ru : RocksRecoveryUnit) (w : World) (s1 : St) :
  _depth ru = 1 ->
  run commitUnitOfWork (ru, w) = Ok tt s1 ->
  exists s2,
    run endUnitOfWork s1 = Ok tt s2 /\
    events_of endUnitOfWork s1 = [EvTxnAbort] /\
    w_db (snd s2) = w_db (snd s1) /\
    w_counters (snd s2) = w_counters (snd s1) /\
    fst s2 = set_depth 0 (set_deltaCounters ∅ (fst s1)) /\
    (is_Some (_writeBatch ru) -> fst s2 = set_depth 0 (fst s1)).
Proof.
  intros Hd Hrun.
  destruct (commitUnitOfWork_post ru w s1 ltac:(lia) Hrun)
    as (Hch & Hwb & Hsn & Hd1 & _ & Hdc).
  destruct s1 as [ru1 w1]. cbn [fst snd] in *.
  assert (run endUnitOfWork (ru1, w1) =
          Ok tt (set_depth 0 (set_deltaCounters ∅ ru1), add_trace [EvTxnAbort] w1)) as E.
  { unfold endUnitOfWork. step. cbn [set_depth _depth]. rewrite Hd1, Hd. cbn.
    rewrite _abort_run. unfold release. cbn. rewrite Hsn, Hch. cbn.
    destruct ru1; cbn in *; subst. reflexivity. }
  eexists; split; [exact E|].
  split; [apply events_of_intro; by rewrite E|].
  cbn. repeat split; try reflexivity.
  intros Hs. specialize (Hdc Hs). destruct ru1; cbn in *; subst. reflexivity.
Qed.

Lemma C9_end_after_commit_only_notifies_abort_witness :
  let ru := set_depth 1 (set_writeBatch (Some (wbwi_Put 1 "k" "v" wbwi_new))
                           (RocksRecoveryUnit_new true)) in
  let s1 := final (run commitUnitOfWork (ru, empty_world)) in
  _depth ru = 1 /\ run commitUnitOfWork (ru, empty_world) = Ok tt s1 /\
  events_of endUnitOfWork s1 = [EvTxnAbort].
Proof.
  split; [reflexivity|]. split; [vm_compute; reflexivity|].
  destruct (C9_end_after_commit_only_notifies_abort
              (set_depth 1 (set_writeBatch (Some (wbwi_Put 1 "k" "v" wbwi_new))
                              (RocksRecoveryUnit_new true)))
              empty_world _ ltac:(reflexivity) ltac:(vm_compute; reflexivity))
    as (s2 & _ & Hev & _).
  exact Hev.
Defined.

(** C8: a point lookup is answered from the write batch when the batch holds
    an operation on the key: not-found when the latest one is a delete, its
    value when the latest one is a put, and in both cases nothing else
    happens (no call to the store, no snapshot taken, no state changed).
    Otherwise the store is asked under the snapshot: the one held, or one
    acquired on the spot and kept. *)
Theorem C8_point_lookup_reads_buffer_then_snapshot
    (ru : RocksRecoveryUnit) (w : World) (cf : ColumnFamilyHandle) (key : string) :
  ru_wf ru ->
  match buffered ru cf key with
  | Some entry =>
      run (Get cf key) (ru, w) =
      Ok (match w_type entry with
          | kDeleteRecord => (StatusNotFound, None)
          | kPutRecord => (StatusOK, Some (w_value entry))
          end) (ru, w)
  | None =>
      match _snapshot ru with
      | Some s =>
          run (Get cf key) (ru, w) =
          Ok (lookup_result (snap_data s !! (cf, key)))
             (ru, add_trace [EvGet (Some (snap_id s)) cf key] w)
      | None =>
          let s := mkSnapshot (db_next_snapshot (w_db w)) (db_data (w_db w)) in
          run (Get cf key) (ru, w) =
          Ok (lookup_result (snap_data s !! (cf, key)))
             (set_snapshot (Some s) ru,
              mkWorld (DB_GetSnapshot (w_db w)).2 (w_counters w)
                (w_trace w ++ [EvRecordSnapshotId; EvGetSnapshot (snap_id s);
                               EvGet (Some (snap_id s)) cf key]))
      end
  end.
Proof.
  intros Hwf. rewrite (Get_run _ _ _ _ Hwf).
  destruct (buffered ru cf key); [reflexivity|].
  rewrite fall_through_run. destruct (_snapshot ru); [reflexivity|].
  unfold acquire, add_trace; cbn. by rewrite <- app_assoc.
Qed.

Lemma C8_point_lookup_reads_buffer_then_snapshot_witness :
  let ru := fst (final (run (exec_all [OpPut 1 "a" "1"; OpPut 1 "c" "3"; OpDelete 1 "a"])
                            (RocksRecoveryUnit_new true, empty_world))) in
  ru_wf ru /\
  run (Get 1 "a") (ru, empty_world) = Ok (StatusNotFound, None) (ru, empty_world) /\
  run (Get 1 "c") (ru, empty_world) = Ok (StatusOK, Some "3") (ru, empty_world).
Proof.
  intros ru. split; [vm_compute; reflexivity|]. split.
  - apply (C8_point_lookup_reads_buffer_then_snapshot ru empty_world 1 "a").
    vm_compute; reflexivity.
  - apply (C8_point_lookup_reads_buffer_then_snapshot ru empty_world 1 "c").
    vm_compute; reflexivity.
Defined.

(** C3 (as stated, refuted), on four units of work at depth 1 that increment
    counter "x" by 3 and then by 2 and commit; the shared counter is at
    address 7 and holds 10.
    - The unit has written nothing, so it has no write batch: the pending
      delta reads 5, but the commit skips [_commit]; nothing is stored under
      "x", the shared counter stays at 10, and the [endUnitOfWork] that
      follows drops the delta.
    - Another key, "y", has a delta of 100 pending on the same shared
      counter: the commit leaves the shared counter at 115, not 15.
    - The store holds 100 under "x" before the unit begins while the shared
      counter holds 10: the commit stores 15 under "x", the shared counter
      plus 5, not the stored value plus 5.
    - A delta of 7 is already pending on "x": [getDeltaCounter] returns 12
      before the commit, not 5. *)
Lemma C3_increments_counterexamples :
  let increments := incrementCounter "x" 7 3;; incrementCounter "x" 7 2 in
  let counters : gmap CounterRef Z := {[ 7%nat := 10 ]} in
  (* no write batch *)
  (let s0 := (set_depth 1 (RocksRecoveryUnit_new true), mkWorld empty_db counters []) in
   let s1 := final (run increments s0) in
   let s2 := final (run commitUnitOfWork s1) in
   let s3 := final (run endUnitOfWork s2) in
   run (getDeltaCounter "x") s1 = Ok 5 s1 /\
   run commitUnitOfWork s1 = Ok tt s2 /\
   db_data (w_db (snd s2)) !! (0%nat, "x") = None /\
   counter_value 7 (snd s2) = 10 /\
   db_data (w_db (snd s3)) !! (0%nat, "x") = None /\
   counter_value 7 (snd s3) = 10 /\
   _deltaCounters (fst s3) !! "x" = None) /\
  (* another key pending on the same shared counter *)
  (let s0 := (set_depth 1 (set_writeBatch (Some wbwi_new) (RocksRecoveryUnit_new true)),
              mkWorld empty_db counters []) in
   let s1 := final (run (incrementCounter "y" 7 100;; increments) s0) in
   let s2 := final (run commitUnitOfWork s1) in
   run (getDeltaCounter "x") s1 = Ok 5 s1 /\
   run commitUnitOfWork s1 = Ok tt s2 /\
   counter_value 7 (snd s2) = 115) /\
  (* the store and the shared counter disagree before the unit begins *)
  (let db := mkDB {[ (0%nat, "x") := encode_ll 100 ]} 0 [] false in
   let s0 := (set_depth 1 (set_writeBatch (Some wbwi_new) (RocksRecoveryUnit_new true)),
              mkWorld db counters []) in
   let s1 := final (run increments s0) in
   let s2 := final (run commitUnitOfWork s1) in
   decode_ll <$> db_data db !! (0%nat, "x") = Some 100 /\
   run commitUnitOfWork s1 = Ok tt s2 /\
   decode_ll <$> db_data (w_db (snd s2)) !! (0%nat, "x") = Some 15 /\
   counter_value 7 (snd s2) = 15) /\
  (* a delta already pending on the key *)
  (let s0 := (set_depth 1 (set_writeBatch (Some wbwi_new) (RocksRecoveryUnit_new true)),
              mkWorld empty_db counters []) in
   let s1 := final (run (incrementCounter "x" 7 7;; increments) s0) in
   run (getDeltaCounter "x") s1 = Ok 12 s1).
Proof. vm_compute. repeat split; reflexivity. Qed.

(** C3 (amended): in a unit of work at depth 1 that has a write batch, with
    no delta pending on "x" and no delta pending on another key for the same
    shared counter, [incrementCounter] on "x" by 3 and then by 2 makes
    [getDeltaCounter] return 5; the commit, with a store that accepts the
    batch, then stores under "x" the encoding of the shared counter's value
    before the commit plus 5 (in 64-bit arithmetic), and the shared counter
    holds that total. *)
Theorem C3_increments_persist_with_write_batch
    (ru : RocksRecoveryUnit) (w : World) (r : CounterRef) :
  _depth ru = 1 ->
  is_Some (_writeBatch ru) ->
  _deltaCounters ru !! "x" = None ->
  (forall k c, _deltaCounters ru !! k = Some c -> _value c <> r) ->
  db_write_fails (w_db w) = false ->
  let v0 := counter_value r w in
  exists s1 s2,
    run (incrementCounter "x" r 3;; incrementCounter "x" r 2) (ru, w) = Ok tt s1 /\
    run (getDeltaCounter "x") s1 = Ok 5 s1 /\
    run commitUnitOfWork s1 = Ok tt s2 /\
    db_data (w_db (snd s2)) !! (0%nat, "x") = Some (encode_ll (wrap64 (v0 + 5))) /\
    decode_ll (encode_ll (wrap64 (v0 + 5))) = wrap64 (v0 + 5) /\
    counter_value r (snd s2) = wrap64 (v0 + 5) /\
    (LLONG_MIN <= v0 <= LLONG_MAX - 5 -> wrap64 (v0 + 5) = v0 + 5).
Proof.
  intros Hd [wb Hwb] Hx Hother Hf v0.
  rewrite increment_twice_run by done. change (wrap64 (3 + 2)) with 5.
  set (dc := <["x" := mkCounter r 5]> (_deltaCounters ru)).
  set (ru1 := set_deltaCounters dc ru).
  exists (ru1, w).
  assert (_writeBatch ru1 = Some wb) as Hwb1 by (by destruct ru).
  assert (_depth ru1 <= 1) as Hd1 by (destruct ru; cbn in *; lia).
  destruct (flush_counter (map_to_list dc) wb (w_counters w) r "x" 5) as [Hcnt Hlast].
  { apply NoDup_fst_map_to_list. }
  { apply elem_of_map_to_list. apply lookup_insert_eq. }
  { intros k c Hin Hne. apply elem_of_map_to_list in Hin.
    unfold dc in Hin. rewrite lookup_insert_ne in Hin by done. by apply (Hother k). }
  pose proof (flush_Count (map_to_list dc) (wb, w_counters w)) as Hcount.
  assert (length (map_to_list dc) <> 0%nat) as Hlen.
  { intros E. apply length_zero_iff_nil, map_to_list_empty_iff in E.
    by apply insert_non_empty in E. }
  eexists. split; [reflexivity|]. split.
  { unfold getDeltaCounter. step. subst ru1 dc. cbn [set_deltaCounters _deltaCounters].
    rewrite lookup_insert_eq. by step. }
  rewrite (commitUnitOfWork_outermost _ _ Hd1), Hwb1.
  rewrite bool_decide_eq_true_2 by eauto.
  rewrite (_commit_run ru1 w wb Hwb1). cbv zeta.
  replace (_deltaCounters ru1) with dc by (by destruct ru).
  destruct (Count (flush (map_to_list dc) (wb, w_counters w)).1 =? 0)%nat eqn:Hz.
  { apply Nat.eqb_eq in Hz. cbn [fst] in Hcount. lia. }
  rewrite Hf. split; [reflexivity|]. cbn [fst snd].
  rewrite release_db_data. unfold counter_value at 1. rewrite release_counters.
  cbn [w_db w_counters add_trace]. unfold DB_Write. rewrite Hf. cbn [snd db_data].
  rewrite apply_batch_lookup, Hlast, Hcnt. cbn [w_type w_value default].
  fold (counter_value r w). fold v0.
  split; [reflexivity|]. split; [|split; [reflexivity|]].
  - rewrite decode_encode_ll. apply wrap64_id.
    unfold wrap64, LLONG_MIN, LLONG_MAX.
    pose proof (Z.mod_pos_bound (v0 + 5 + 2 ^ 63) (2 ^ 64) ltac:(lia)). lia.
  - intros Hrange. apply wrap64_id. unfold LLONG_MIN, LLONG_MAX in *. lia.
Qed.

Lemma C3_increments_persist_with_write_batch_witness :
  let ru := set_depth 1 (set_writeBatch (Some wbwi_new) (RocksRecoveryUnit_new true)) in
  let w := mkWorld empty_db {[ 7%nat := 10 ]} [] in
  exists s1 s2,
    run (incrementCounter "x" 7 3;; incrementCounter "x" 7 2) (ru, w) = Ok tt s1 /\
    run (getDeltaCounter "x") s1 = Ok 5 s1 /\
    run commitUnitOfWork s1 = Ok tt s2 /\
    db_data (w_db (snd s2)) !! (0%nat, "x") = Some (encode_ll 15) /\
    counter_value 7 (snd s2) = 15.
Proof.
  intros ru w.
  destruct (C3_increments_persist_with_write_batch ru w 7%nat)
    as (s1 & s2 & H1 & H2 & H3 & H4 & _ & H5 & _).
  - reflexivity.
  - eexists; reflexivity.
  - reflexivity.
  - intros k c Hk. vm_compute in Hk. discriminate.
  - reflexivity.
  - exists s1, s2. repeat split; assumption.
Defined.

(** C4 (as stated, refuted): a unit of work at depth 1 with no write batch
    increments a counter and commits; the commit returns with the counter
    delta still pending. *)
Lemma C4_commit_keeps_counter_deltas :
  let s1 := final (run (exec_all [OpBeginUnitOfWork; OpIncrementCounter "x" 7 3])
                       (RocksRecoveryUnit_new true, empty_world)) in
  let s2 := final (run commitUnitOfWork s1) in
  _depth (fst s1) = 1 /\
  run commitUnitOfWork s1 = Ok tt s2 /\
  _writeBatch (fst s2) = None /\
  _deltaCounters (fst s2) !! "x" = Some (mkCounter 7 3).
Proof. vm_compute. repeat split; reflexivity. Qed.

(** C4 (amended): every abort leaves the unit with no write batch and no
    counter deltas; so does every commit carried out on a unit that has a
    write batch; and no operation of the interface empties one of the two
    while the other stays. *)
Theorem C4_counter_deltas_and_write_batch_cleared_together :
  (forall ru w,
     exists s', run _abort (ru, w) = Ok tt s' /\
                _writeBatch (fst s') = None /\ _deltaCounters (fst s') = ∅) /\
  (forall ru w,
     _depth ru <= 1 -> is_Some (_writeBatch ru) -> db_write_fails (w_db w) = false ->
     exists s', run commitUnitOfWork (ru, w) = Ok tt s' /\
                _writeBatch (fst s') = None /\ _deltaCounters (fst s') = ∅) /\
  (forall op ru w, cleared_together ru (fst (final (run (exec op) (ru, w))))).
Proof.
  split; [|split].
  - intros ru w. rewrite _abort_run. eexists; split; [reflexivity|]. by cbn.
  - intros ru w Hd Hwb Hf.
    destruct (commitUnitOfWork_ok ru w Hd Hf) as (s' & Hrun & _ & Hb & _ & Hdc).
    exists s'. auto.
  - apply exec_cleared_together.
Qed.

Lemma C4_counter_deltas_and_write_batch_cleared_together_witness :
  let ru := fst (final (run (exec_all [OpBeginUnitOfWork; OpPut 1 "k" "v";
                                       OpIncrementCounter "x" 7 3])
                            (RocksRecoveryUnit_new true, empty_world))) in
  exists s', run commitUnitOfWork (ru, empty_world) = Ok tt s' /\
             _writeBatch (fst s') = None /\ _deltaCounters (fst s') = ∅.
Proof.
  intros ru.
  apply (proj1 (proj2 C4_counter_deltas_and_write_batch_cleared_together) ru empty_world).
  - vm_compute. discriminate.
  - vm_compute. eexists; reflexivity.
  - reflexivity.
Defined.

Lemma in_unit_wf ops s0 s2 : in_unit ops s0 s2 -> ru_wf (fst s0) -> ru_wf (fst s2).
Proof.
  induction 1 as [s0|op ops [ru w] s1 s2 _ Hrun _ IH]; [done|].
  intros Hwf. apply IH. pose proof (exec_preserves_wf op ru w Hwf) as H.
  by rewrite Hrun in H.
Qed.

(** The snapshot an operation acquires is the one the store hands out at that
    moment: the store's data as it is then. *)
Lemma exec_acquired_snapshot op ru w held :
  _snapshot ru = None ->
  _snapshot (fst (final (run (exec op) (ru, w)))) = Some held ->
  held = mkSnapshot (db_next_snapshot (w_db w)) (db_data (w_db w)).
Proof.
  intros Hs.
  assert (_snapshot (fst (final (run commitUnitOfWork (ru, w)))) = Some held -> False)
    as Hcommit.
  { destruct (Z_le_gt_dec (_depth ru) 1) as [Hd|Hd].
    - pose proof (commitUnitOfWork_final ru w Hd) as H. cbv zeta in H.
      destruct (_writeBatch ru);
        [destruct H as [(_ & _ & E)|(_ & _ & E & _)]|destruct H as (_ & _ & E)];
        rewrite E; congruence.
    - rewrite commitUnitOfWork_nested by lia. cbn. congruence. }
  destruct op; try (intros H; by destruct (Hcommit H));
    exec_unfold; exec_crush; try (intros H; by destruct (Hcommit H));
    unfold acquire; cbn; intros; simplify_eq; try reflexivity; congruence.
Qed.

(** C2: with no snapshot held, a read that needs a consistent view
    ([snapshot()], a [Get] the write batch does not answer, a [NewIterator])
    first calls the conflict tracker's [recordSnapshotId()], then the store's
    [GetSnapshot()], then reads the store under the snapshot it got, and keeps
    it; whatever the operation, a [GetSnapshot()] comes right after a
    [recordSnapshotId()].  From then on, through any operations that do not
    end the unit of work, the unit holds that very snapshot, asks the store
    for no other, and every further read goes through it: [snapshot()]
    returns it, a [Get] the batch does not answer and a [NewIterator] read
    the store under it, from the data it captured. *)
Theorem C2_first_read_records_then_acquires_and_later_reads_reuse
    (ru : RocksRecoveryUnit) (w : World) :
  ru_wf ru -> _snapshot ru = None ->
  let s := mkSnapshot (db_next_snapshot (w_db w)) (db_data (w_db w)) in
  let acq := [EvRecordSnapshotId; EvGetSnapshot (snap_id s)] in
  (run snapshot (ru, w) = Ok s (acquire ru w) /\
   events_of snapshot (ru, w) = acq /\
   _snapshot (fst (acquire ru w)) = Some s) /\
  (forall cf key, buffered ru cf key = None ->
     run (Get cf key) (ru, w) =
       Ok (lookup_result (snap_data s !! (cf, key)))
          (fst (acquire ru w),
           add_trace [EvGet (Some (snap_id s)) cf key] (snd (acquire ru w))) /\
     events_of (Get cf key) (ru, w) = acq ++ [EvGet (Some (snap_id s)) cf key]) /\
  (forall h, address h <> address (DefaultColumnFamilyHandle (w_db w)) ->
     run (NewIterator h) (ru, w) =
       Ok (overlay ru (GetID h) (BaseIterator (snap_data s) (GetID h)))
          (fst (acquire ru w),
           add_trace [EvNewIterator (Some (snap_id s)) (GetID h)] (snd (acquire ru w))) /\
     events_of (NewIterator h) (ru, w) =
       acq ++ [EvNewIterator (Some (snap_id s)) (GetID h)]) /\
  (forall op, acquires_in_order ru w (exec op)) /\
  (forall op s1 held ops s2,
     run (exec op) (ru, w) = Ok tt s1 -> _snapshot (fst s1) = Some held ->
     in_unit ops s1 s2 ->
     held = s /\
     _snapshot (fst s2) = Some held /\
     (exists tr, w_trace (snd s2) = w_trace (snd s1) ++ tr /\ no_snapshot_events tr) /\
     run snapshot s2 = Ok held s2 /\
     (forall cf key, buffered (fst s2) cf key = None ->
        run (Get cf key) s2 =
          Ok (lookup_result (snap_data held !! (cf, key)))
             (fst s2, add_trace [EvGet (Some (snap_id held)) cf key] (snd s2))) /\
     (forall h, address h <> address (DefaultColumnFamilyHandle (w_db (snd s2))) ->
        run (NewIterator h) s2 =
          Ok (overlay (fst s2) (GetID h) (BaseIterator (snap_data held) (GetID h)))
             (fst s2, add_trace [EvNewIterator (Some (snap_id held)) (GetID h)] (snd s2)))).
Proof.
  intros Hwf Hnone s acq.
  assert (forall e, w_trace (add_trace [e] (snd (acquire ru w))) = w_trace w ++ acq ++ [e])
    as Htrace.
  { intros e. unfold acquire, add_trace. cbn. by rewrite <- app_assoc. }
  split; [|split; [|split; [|split]]].
  - rewrite snapshot_run, Hnone. split; [reflexivity|]. split; [|reflexivity].
    apply events_of_intro. by rewrite snapshot_run, Hnone.
  - intros cf key Hbuf.
    assert (run (Get cf key) (ru, w) =
            Ok (lookup_result (snap_data s !! (cf, key)))
               (fst (acquire ru w),
                add_trace [EvGet (Some (snap_id s)) cf key] (snd (acquire ru w)))) as E.
    { rewrite (Get_run _ _ _ _ Hwf), Hbuf, fall_through_run, Hnone. reflexivity. }
    split; [exact E|]. apply events_of_intro. rewrite E. apply Htrace.
  - intros h Hh.
    assert (run (NewIterator h) (ru, w) =
            Ok (overlay ru (GetID h) (BaseIterator (snap_data s) (GetID h)))
               (fst (acquire ru w),
                add_trace [EvNewIterator (Some (snap_id s)) (GetID h)] (snd (acquire ru w))))
      as E.
    { rewrite NewIterator_run. unfold same_handle.
      rewrite (proj2 (Nat.eqb_neq _ _) Hh), Hnone. reflexivity. }
    split; [exact E|]. apply events_of_intro. rewrite E. apply Htrace.
  - intros op. by apply exec_acquires_in_order.
  - intros op s1 held ops s2 Hrun Hheld Hunit.
    assert (held = s) as Hs.
    { apply (exec_acquired_snapshot op ru w held Hnone). by rewrite Hrun. }
    assert (ru_wf (fst s1)) as Hwf1.
    { pose proof (exec_preserves_wf op ru w Hwf) as H. by rewrite Hrun in H. }
    pose proof (in_unit_wf ops s1 s2 Hunit Hwf1) as Hwf2.
    destruct (in_unit_keeps_snapshot ops s1 s2 held Hunit Hheld) as (Hs2 & tr & Htr & Hno).
    destruct s2 as [ru2 w2]. cbn [fst snd] in *.
    split; [exact Hs|]. split; [exact Hs2|]. split; [eauto|]. split; [|split].
    + by rewrite snapshot_run, Hs2.
    + intros cf key Hbuf.
      by rewrite (Get_run _ _ _ _ Hwf2), Hbuf, fall_through_run, Hs2.
    + intros h Hh. rewrite NewIterator_run. unfold same_handle.
      by rewrite (proj2 (Nat.eqb_neq _ _) Hh), Hs2.
Qed.

Lemma C2_first_read_records_then_acquires_and_later_reads_reuse_witness :
  let ru := set_depth 1 (RocksRecoveryUnit_new true) in
  let w := mkWorld (mkDB {[ (1%nat, "j") := "old" ]} 0 [] false) ∅ [] in
  let s := mkSnapshot 0 {[ (1%nat, "j") := "old" ]} in
  let s1 := final (run (exec (OpGet 1 "k")) (ru, w)) in
  let ops := [OpPut 1 "k" "v"; OpNewIterator (mkHandlePtr 7 1); OpBeginUnitOfWork;
              OpCommitUnitOfWork; OpEndUnitOfWork] in
  let s2 := final (run (exec_all ops) s1) in
  ru_wf ru /\ _snapshot ru = None /\
  events_of (Get 1 "k") (ru, w) =
    [EvRecordSnapshotId; EvGetSnapshot 0; EvGet (Some 0%nat) 1 "k"] /\
  _snapshot (fst s2) = Some s /\
  run snapshot s2 = Ok s s2 /\
  run (Get 1 "j") s2 =
    Ok (StatusOK, Some "old") (fst s2, add_trace [EvGet (Some 0%nat) 1 "j"] (snd s2)).
Proof.
  intros ru w s s1 ops s2.
  destruct (C2_first_read_records_then_acquires_and_later_reads_reuse ru w)
    as (_ & Hget & _ & _ & Hreuse); [exact I|reflexivity|].
  split; [exact I|]. split; [reflexivity|].
  split; [exact (proj2 (Hget 1%nat "k" ltac:(reflexivity)))|].
  destruct (Hreuse (OpGet 1 "k") s1 s ops s2) as (_ & H2 & _ & H4 & H5 & _).
  - vm_compute. reflexivity.
  - vm_compute. reflexivity.
  - repeat (eapply in_unit_cons; [vm_compute; reflexivity|vm_compute; reflexivity|]).
    apply in_unit_nil.
  - split; [exact H2|]. split; [exact H4|].
    apply (H5 1%nat "j"). vm_compute. reflexivity.
Defined.

(** ** More about the methods *)

(** *** Counter deltas *)

Lemma wrap64_range z : in_range (wrap64 z).
Proof.
  unfold in_range, wrap64, LLONG_MIN, LLONG_MAX.
  pose proof (Z.mod_pos_bound (z + 2 ^ 63) (2 ^ 64) ltac:(lia)). lia.
Qed.

Lemma wrap64_add_l a b : wrap64 (wrap64 a + b) = wrap64 (a + b).
Proof.
  unfold wrap64.
  replace ((a + 2 ^ 63) mod 2 ^ 64 - 2 ^ 63 + b + 2 ^ 63)
    with ((a + 2 ^ 63) mod 2 ^ 64 + b) by lia.
  rewrite Zplus_mod_idemp_l. f_equal. f_equal. lia.
Qed.

Lemma incrementCounter_run key r d ru w :
  run (incrementCounter key r d) (ru, w) =
  Ok tt (if d =? 0 then ru
         else set_deltaCounters
                (<[key := match _deltaCounters ru !! key with
                          | Some c => mkCounter (_value c) (wrap64 (_delta c + d))
                          | None => mkCounter r d
                          end]> (_deltaCounters ru)) ru, w).
Proof.
  unfold incrementCounter. destruct (d =? 0); step; [reflexivity|].
  destruct (_deltaCounters ru !! key); by step.
Qed.

Lemma pending_after_increment key r d ru w k :
  in_range (pending ru k) -> in_range d ->
  pending (fst (final (run (incrementCounter key r d) (ru, w)))) k =
  wrap64 (pending ru k + (if String.eqb key k then d else 0)).
Proof.
  intros Hp Hd. rewrite incrementCounter_run. cbn [final fst].
  destruct (d =? 0) eqn:Hz.
  - apply Z.eqb_eq in Hz. subst d.
    destruct (String.eqb key k); rewrite Z.add_0_r; symmetry; by apply wrap64_id.
  - unfold pending. cbn [set_deltaCounters _deltaCounters].
    destruct (String.eqb key k) eqn:Hk.
    + apply String.eqb_eq in Hk. subst k. rewrite lookup_insert_eq.
      unfold pending in Hp.
      destruct (_deltaCounters ru !! key); cbn [_delta]; [reflexivity|].
      rewrite Z.add_0_l. symmetry. by apply wrap64_id.
    + apply String.eqb_neq in Hk. rewrite lookup_insert_ne by done.
      rewrite Z.add_0_r. symmetry. by apply wrap64_id.
Qed.

Lemma getDeltaCounter_run key ru w :
  run (getDeltaCounter key) (ru, w) = Ok (pending ru key) (ru, w).
Proof.
  unfold getDeltaCounter, pending. step. destruct (_deltaCounters ru !! key); by step.
Qed.

Lemma incrementCounter_world key r d ru w :
  exists ru', run (incrementCounter key r d) (ru, w) = Ok tt (ru', w).
Proof. rewrite incrementCounter_run. eauto. Qed.

(** X1: after any run of [incrementCounter] calls, on whatever keys and with
    whatever deltas (zero included), [getDeltaCounter] on a key returns the
    delta that was pending on it plus the deltas of the calls on that key,
    summed in 64 bits; calls on other keys do not count, and nothing outside
    the recovery unit is touched. *)
Theorem X1_pending_delta_is_sum_of_increments
    (incs : list (string * CounterRef * Z)) (ru : RocksRecoveryUnit) (w : World)
    (key : string) :
  in_range (pending ru key) ->
  Forall (fun i => in_range i.2) incs ->
  exists ru',
    run (increment_all incs) (ru, w) = Ok tt (ru', w) /\
    run (getDeltaCounter key) (ru', w) =
      Ok (wrap64 (pending ru key + delta_sum key incs)) (ru', w).
Proof.
  intros Hp Hall. revert ru Hp.
  induction Hall as [|[[k r] d] incs Hd _ IH]; intros ru Hp.
  - exists ru. split; [reflexivity|]. rewrite getDeltaCounter_run.
    cbn [delta_sum]. rewrite Z.add_0_r. by rewrite wrap64_id.
  - unfold increment_all in *. cbn [for_each fst snd]. rewrite run_bind.
    pose proof (pending_after_increment k r d ru w key Hp Hd) as Hstep.
    destruct (incrementCounter_world k r d ru w) as [ru1 Hrun].
    rewrite Hrun in *. cbn [final fst] in Hstep.
    destruct (IH ru1) as (ru' & Hrun' & Hget).
    { rewrite Hstep. apply wrap64_range. }
    exists ru'. split; [exact Hrun'|]. rewrite Hget, Hstep.
    cbn [delta_sum fst snd]. rewrite wrap64_add_l. by rewrite Z.add_assoc.
Qed.

Lemma X1_pending_delta_is_sum_of_increments_witness :
  let incs := [("x", 7%nat, 3); ("y", 8%nat, 100); ("x", 7%nat, 0); ("x", 9%nat, -1)] in
  exists ru',
    run (increment_all incs) (RocksRecoveryUnit_new true, empty_world) = Ok tt (ru', empty_world) /\
    run (getDeltaCounter "x") (ru', empty_world) = Ok 2 (ru', empty_world).
Proof.
  intros incs.
  apply (X1_pending_delta_is_sum_of_increments incs (RocksRecoveryUnit_new true)
           empty_world "x").
  - vm_compute. split; discriminate.
  - repeat constructor; vm_compute; discriminate.
Defined.

(** X2: once a delta is pending on a key, further [incrementCounter] calls on
    the key keep the counter reference of the pending entry: the reference
    they are given is not used. *)
Theorem X2_pending_entry_keeps_its_counter_reference
    (incs : list (string * CounterRef * Z)) (ru : RocksRecoveryUnit) (w : World)
    (key : string) (c : Counter) :
  _deltaCounters ru !! key = Some c ->
  exists ru' c',
    run (increment_all incs) (ru, w) = Ok tt (ru', w) /\
    _deltaCounters ru' !! key = Some c' /\ _value c' = _value c.
Proof.
  revert ru c. induction incs as [|[[k r] d] incs IH]; intros ru c Hc.
  - exists ru, c. by repeat split.
  - unfold increment_all in *. cbn [for_each fst snd]. rewrite run_bind.
    rewrite incrementCounter_run.
    set (ru1 := if d =? 0 then ru else _).
    assert (exists c1, _deltaCounters ru1 !! key = Some c1 /\ _value c1 = _value c)
      as (c1 & Hc1 & Hv1).
    { subst ru1. destruct (d =? 0); [eauto|]. cbn [set_deltaCounters _deltaCounters].
      destruct (decide (k = key)) as [->|Hne].
      - rewrite lookup_insert_eq, Hc. eauto.
      - rewrite lookup_insert_ne by done. eauto. }
    destruct (IH ru1 c1 Hc1) as (ru' & c' & Hrun & Hc' & Hv').
    exists ru', c'. split; [exact Hrun|]. split; [done|congruence].
Qed.

Lemma X2_pending_entry_keeps_its_counter_reference_witness :
  let ru := fst (final (run (incrementCounter "x" 7 3) (RocksRecoveryUnit_new true, empty_world))) in
  exists ru' c',
    run (increment_all [("x", 9%nat, 2); ("y", 8%nat, 1)]) (ru, empty_world)
      = Ok tt (ru', empty_world) /\
    _deltaCounters ru' !! "x" = Some c' /\ _value c' = 7%nat.
Proof.
  intros ru.
  apply (X2_pending_entry_keeps_its_counter_reference
           [("x", 9%nat, 2); ("y", 8%nat, 1)] ru empty_world "x" (mkCounter 7 3)).
  vm_compute. reflexivity.
Defined.

(** *** The persisted form of a counter *)

Lemma le_bytes_length n z : String.length (le_bytes n z) = n.
Proof. revert z; induction n as [|n IH]; intros z; cbn; [reflexivity|by rewrite IH]. Qed.

(** X3: the persisted form of a counter is [sizeof(long long)] = 8 bytes,
    decoding it gives the counter back, and so two different counter values
    never have the same persisted form. *)
Theorem X3_counter_encoding_round_trip (z1 z2 : Z) :
  in_range z1 -> in_range z2 ->
  String.length (encode_ll z1) = 8%nat /\
  decode_ll (encode_ll z1) = z1 /\
  (encode_ll z1 = encode_ll z2 -> z1 = z2).
Proof.
  intros H1 H2. split; [apply le_bytes_length|]. split.
  - rewrite decode_encode_ll. by apply wrap64_id.
  - intros E. apply (f_equal decode_ll) in E.
    rewrite !decode_encode_ll, !wrap64_id in E; done.
Qed.

Lemma X3_counter_encoding_round_trip_witness :
  String.length (encode_ll (-5)) = 8%nat /\ decode_ll (encode_ll (-5)) = -5.
Proof.
  destruct (X3_counter_encoding_round_trip (-5) LLONG_MAX) as (Hl & Hd & _).
  - vm_compute. split; discriminate.
  - vm_compute. split; discriminate.
  - split; assumption.
Defined.

(** *** Snapshots are released *)

Lemma acquired_app tr1 tr2 : acquired (tr1 ++ tr2) = acquired tr1 ++ acquired tr2.
Proof.
  induction tr1 as [|e tr1 IH]; [reflexivity|].
  destruct e; cbn; by rewrite ?IH.
Qed.

Lemma released_app tr1 tr2 : released (tr1 ++ tr2) = released tr1 ++ released tr2.
Proof.
  induction tr1 as [|e tr1 IH]; [reflexivity|].
  destruct e; cbn; by rewrite ?IH.
Qed.

Lemma no_snapshot_events_ledger tr :
  no_snapshot_events tr -> acquired tr = [] /\ released tr = [].
Proof.
  induction 1 as [|e tr He _ [IH1 IH2]]; [done|].
  destruct e; cbn in *; try discriminate; done.
Qed.

Lemma finish_events_ledger ru :
  acquired (finish_events ru) = [] /\
  released (finish_events ru) = option_list (snap_id <$> _snapshot ru).
Proof.
  unfold finish_events. rewrite acquired_app, released_app.
  destruct (no_snapshot_events_ledger _ (no_snapshot_events_commits (_changes ru)))
    as [-> ->].
  by destruct (_snapshot ru).
Qed.

Lemma app_assoc3 {A} (a p m r : list A) : ((a ++ p) ++ m) ++ r = a ++ p ++ m ++ r.
Proof.
  rewrite <- (app_assoc (a ++ p) m r), <- (app_assoc a p (m ++ r)). reflexivity.
Qed.

(** A commit that is carried out either finishes, with the snapshot released,
    or dies on the write, with the snapshot as it was. *)
Lemma commitUnitOfWork_snapshot_cases ru w :
  _depth ru <= 1 ->
  exists pre, no_snapshot_events pre /\
    ((_snapshot (fst (final (run commitUnitOfWork (ru, w)))) = None /\
      w_trace (snd (final (run commitUnitOfWork (ru, w)))) =
        w_trace w ++ pre ++ finish_events ru) \/
     (_snapshot (fst (final (run commitUnitOfWork (ru, w)))) = _snapshot ru /\
      w_trace (snd (final (run commitUnitOfWork (ru, w)))) = w_trace w ++ pre)).
Proof.
  intros Hd. rewrite (commitUnitOfWork_outermost _ _ Hd).
  assert (forall (tr : list Event),
            (tr ++ map EvChangeCommit (_changes ru)) ++
              match _snapshot ru with
              | Some s => [EvReleaseSnapshot (snap_id s)]
              | None => []
              end = tr ++ [] ++ finish_events ru) as Hnil.
  { intros tr. cbn [app]. unfold finish_events. apply eq_sym, app_assoc. }
  destruct (_writeBatch ru) as [wb|] eqn:Hwb.
  - rewrite bool_decide_eq_true_2 by eauto.
    rewrite (_commit_run ru w wb Hwb). cbv zeta.
    destruct (Count _ =? 0)%nat; [|destruct (db_write_fails (w_db w))];
      cbn [final fst snd]; rewrite ?release_trace;
      cbn [add_trace w_trace set_snapshot set_changes set_writeBatch set_deltaCounters
             _snapshot _changes].
    + exists []. split; [constructor|]. left. split; [done|]. apply Hnil.
    + eexists. split; [|right; split; [done|reflexivity]]. by repeat constructor.
    + eexists. split; [|left; split; [done|]].
      2:{ unfold finish_events. apply app_assoc3. }
      by repeat constructor.
  - rewrite bool_decide_eq_false_2 by (intros [? ?]; discriminate).
    rewrite run_skip. cbn [final fst snd]. rewrite release_trace.
    cbn [add_trace w_trace set_snapshot set_changes _snapshot _changes].
    exists []. split; [constructor|]. left. split; [done|]. apply Hnil.
Qed.

Lemma commitUnitOfWork_preserves_ledger ru w :
  snapshot_ledger ru w ->
  snapshot_ledger (fst (final (run commitUnitOfWork (ru, w))))
                  (snd (final (run commitUnitOfWork (ru, w)))).
Proof.
  intros H. destruct (Z_le_gt_dec (_depth ru) 1) as [Hd|Hd].
  - destruct (commitUnitOfWork_snapshot_cases ru w Hd) as (pre & Hpre & Hcase).
    destruct (no_snapshot_events_ledger _ Hpre) as [Ha Hr].
    destruct (finish_events_ledger ru) as [Hfa Hfr].
    unfold snapshot_ledger in *.
    destruct Hcase as [[-> ->]|[-> ->]];
      rewrite ?acquired_app, ?released_app, ?Ha, ?Hr, ?Hfa, ?Hfr, ?app_nil_r, ?app_nil_l;
      cbn [fmap option_fmap option_map option_list]; rewrite ?app_nil_r; done.
  - by rewrite commitUnitOfWork_nested by lia.
Qed.

Lemma _abort_preserves_ledger ru w :
  snapshot_ledger ru w ->
  snapshot_ledger (fst (final (run _abort (ru, w)))) (snd (final (run _abort (ru, w)))) /\
  _snapshot (fst (final (run _abort (ru, w)))) = None.
Proof.
  intros H. rewrite _abort_run. cbn [final fst snd]. split; [|reflexivity].
  unfold snapshot_ledger in *. rewrite release_trace. cbn [add_trace w_trace _snapshot].
  rewrite !acquired_app, !released_app.
  destruct (no_snapshot_events_ledger _ (no_snapshot_events_rollbacks (rev (_changes ru))))
    as [-> ->].
  cbn [acquired released app fmap option_fmap option_map option_list].
  rewrite !app_nil_r, H. destruct (_snapshot ru); cbn; by rewrite ?app_nil_r.
Qed.

Lemma exec_preserves_ledger op ru w :
  snapshot_ledger ru w ->
  snapshot_ledger (fst (final (run (exec op) (ru, w)))) (snd (final (run (exec op) (ru, w)))).
Proof.
  intros H.
  pose proof (commitUnitOfWork_preserves_ledger ru w H) as Hcommit.
  pose proof (proj1 (_abort_preserves_ledger ru w H)) as Habort.
  destruct op; try exact Hcommit; try exact Habort.
  2:{ (* endUnitOfWork *)
      cbn [exec]. unfold endUnitOfWork. step. cbn [set_depth _depth].
      destruct (_depth ru - 1 =? 0); [|by step].
      apply (_abort_preserves_ledger (set_depth (_depth ru - 1) ru) w). exact H. }
  all: exec_unfold; exec_crush; try exact Hcommit; try exact H;
    unfold snapshot_ledger, acquire in *;
    cbn [final fst snd add_trace w_trace set_snapshot set_writeBatch set_depth
           set_changes set_oplogReadTill set_deltaCounters _snapshot DB_GetSnapshot
           snap_id];
    repeat match goal with E : _snapshot _ = _ |- _ => rewrite E in *; clear E end;
    cbn [fmap option_fmap option_map option_list] in *;
    rewrite ?acquired_app, ?released_app; cbn [acquired released];
    rewrite ?app_nil_r in *; try done; by rewrite H.
Qed.

(** X4: a recovery unit holds at most one snapshot and releases every
    snapshot it acquires exactly once: whatever operations are run, the
    snapshots acquired so far are those released so far, in the same order,
    followed by the one still held, if any; and after the destructor none is
    held, so all have been released. *)
Theorem X4_every_snapshot_is_released_once
    (ops : list Op) (ru : RocksRecoveryUnit) (w : World) :
  snapshot_ledger ru w ->
  let s := final (run (exec_all ops) (ru, w)) in
  let s' := final (run destroy s) in
  snapshot_ledger (fst s) (snd s) /\
  _snapshot (fst s') = None /\
  acquired (w_trace (snd s')) = released (w_trace (snd s')).
Proof.
  intros H. cbv zeta.
  assert (snapshot_ledger (fst (final (run (exec_all ops) (ru, w))))
                          (snd (final (run (exec_all ops) (ru, w))))) as Hs.
  { revert ru w H. induction ops as [|op ops IH]; intros ru w H; cbn [exec_all].
    - by rewrite run_skip.
    - rewrite run_bind.
      pose proof (exec_preserves_ledger op ru w H) as Hstep.
      destruct (run (exec op) (ru, w)) as [[] [ru1 w1]|[ru1 w1]]; cbn [final fst snd] in *.
      + by apply IH.
      + done. }
  split; [exact Hs|].
  destruct (final (run (exec_all ops) (ru, w))) as [ru1 w1]. cbn [fst snd] in Hs.
  unfold destroy. destruct (_abort_preserves_ledger ru1 w1 Hs) as [Hl Hnone].
  split; [exact Hnone|]. unfold snapshot_ledger in Hl. rewrite Hnone in Hl.
  cbn in Hl. by rewrite app_nil_r in Hl.
Qed.

Lemma X4_every_snapshot_is_released_once_witness :
  let ops := [OpBeginUnitOfWork; OpGet 1 "k"; OpPut 1 "k" "v"; OpCommitUnitOfWork;
              OpNewIterator (mkHandlePtr 7 1); OpEndUnitOfWork; OpGet 1 "k"] in
  let s := final (run (exec_all ops) (RocksRecoveryUnit_new true, empty_world)) in
  let s' := final (run destroy s) in
  acquired (w_trace (snd s)) = [0; 1; 2]%nat /\
  released (w_trace (snd s)) = [0; 1]%nat /\
  acquired (w_trace (snd s')) = released (w_trace (snd s')).
Proof.
  intros ops s s'. split; [vm_compute; reflexivity|]. split; [vm_compute; reflexivity|].
  apply (X4_every_snapshot_is_released_once ops (RocksRecoveryUnit_new true) empty_world).
  reflexivity.
Defined.

(** *** Buffered writes, reads and the store *)

Lemma commitUnitOfWork_store_unchanged ru w :
  1 < _depth ru \/ _writeBatch ru = None ->
  db_data (w_db (snd (final (run commitUnitOfWork (ru, w))))) = db_data (w_db w) /\
  w_counters (snd (final (run commitUnitOfWork (ru, w)))) = w_counters w.
Proof.
  intros H. destruct (Z_le_gt_dec (_depth ru) 1) as [Hd|Hd].
  - destruct H as [H|H]; [lia|].
    rewrite (commitUnitOfWork_outermost _ _ Hd), H.
    rewrite bool_decide_eq_false_2 by (intros [? ?]; discriminate).
    rewrite run_skip. cbn [final fst snd].
    by rewrite release_db_data, release_counters.
  - by rewrite commitUnitOfWork_nested by lia.
Qed.

(** X5: buffered writes and pending counter deltas reach nothing outside the
    recovery unit before the commit: an operation that changes the store's
    data or a shared counter is a [commitUnitOfWork] or a [commitAndRestart],
    at depth 1 or below, on a unit that has a write batch. *)
Theorem X5_store_and_counters_change_only_at_commit
    (op : Op) (ru : RocksRecoveryUnit) (w : World) :
  db_data (w_db (snd (final (run (exec op) (ru, w))))) <> db_data (w_db w) \/
  w_counters (snd (final (run (exec op) (ru, w)))) <> w_counters w ->
  (op = OpCommitUnitOfWork \/ op = OpCommitAndRestart) /\
  _depth ru <= 1 /\ is_Some (_writeBatch ru).
Proof.
  assert (db_data (w_db (snd (final (run commitUnitOfWork (ru, w))))) <> db_data (w_db w) \/
          w_counters (snd (final (run commitUnitOfWork (ru, w)))) <> w_counters w ->
          _depth ru <= 1 /\ is_Some (_writeBatch ru)) as Hcommit.
  { intros H. destruct (Z_le_gt_dec (_depth ru) 1) as [Hd|Hd].
    - split; [done|]. destruct (_writeBatch ru) as [wb|] eqn:Hwb; [eauto|].
      destruct (commitUnitOfWork_store_unchanged ru w) as [E1 E2]; [by right|].
      destruct H; congruence.
    - destruct (commitUnitOfWork_store_unchanged ru w) as [E1 E2]; [left; lia|].
      destruct H; congruence. }
  destruct op; cbn [exec].
  2:{ intros H. split; [by left|]. by apply Hcommit. }
  4:{ unfold commitAndRestart. step.
      destruct (_depth ru =? 0); step.
      - intros H. split; [by right|]. by apply Hcommit.
      - cbn [final snd]. intros [H|H]; congruence. }
  all: exec_unfold; exec_crush; unfold acquire;
    cbn [final fst snd add_trace w_db w_counters DB_GetSnapshot db_data];
    rewrite ?release_db_data, ?release_counters;
    cbn [add_trace w_db w_counters];
    intros [H|H]; congruence.
Qed.

Lemma X5_store_and_counters_change_only_at_commit_witness :
  let s := final (run (exec_all [OpBeginUnitOfWork; OpPut 1 "k" "v"])
                      (RocksRecoveryUnit_new true, empty_world)) in
  db_data (w_db (snd (final (run (exec OpCommitUnitOfWork) s)))) <> db_data (w_db (snd s)) /\
  _depth (fst s) <= 1 /\ is_Some (_writeBatch (fst s)).
Proof.
  intros s.
  assert (db_data (w_db (snd (final (run (exec OpCommitUnitOfWork) s)))) <>
          db_data (w_db (snd s))) as Hne.
  { intros E. apply (f_equal (fun d => d !! (1%nat, "k"))) in E.
    vm_compute in E. discriminate. }
  split; [exact Hne|].
  destruct s as [ru w].
  apply (X5_store_and_counters_change_only_at_commit OpCommitUnitOfWork ru w).
  left. exact Hne.
Defined.

Lemma wbwi_new_wf : wbwi_wf wbwi_new.
Proof. reflexivity. Qed.

(** [writeBatch()->Put(...)] or [->Delete(...)]: the operation goes to the
    end of the batch that exists, or of a new one. *)
Lemma writeBatch_Put_run cf key value ru w :
  run (writeBatch_Put cf key value) (ru, w) =
  Ok tt (set_writeBatch
           (Some (wbwi_Put cf key value (default wbwi_new (_writeBatch ru)))) ru, w).
Proof.
  unfold writeBatch_Put, writeBatch. step.
  destruct (_writeBatch ru); step; by destruct ru.
Qed.

Lemma writeBatch_Delete_run cf key ru w :
  run (writeBatch_Delete cf key) (ru, w) =
  Ok tt (set_writeBatch (Some (wbwi_Delete cf key (default wbwi_new (_writeBatch ru)))) ru, w).
Proof.
  unfold writeBatch_Delete, writeBatch. step.
  destruct (_writeBatch ru); step; by destruct ru.
Qed.

Lemma default_batch_wf ru : ru_wf ru -> wbwi_wf (default wbwi_new (_writeBatch ru)).
Proof. unfold ru_wf. destruct (_writeBatch ru); [done|]. intros _. apply wbwi_new_wf. Qed.

Lemma buffered_after_add e ru cf key :
  buffered (set_writeBatch (Some (wbwi_add e (default wbwi_new (_writeBatch ru)))) ru) cf key =
  if same_slot cf key (w_cf e) (w_key e) then Some e else buffered ru cf key.
Proof.
  unfold buffered. cbn [set_writeBatch _writeBatch wbwi_add wb_batch].
  rewrite last_op_snoc. by destruct (_writeBatch ru).
Qed.

(** X6: a unit of work reads its own writes.  After a buffered put on a key,
    [Get] on the key returns the value put; after a buffered delete, [Get]
    reports not-found; both without a call to the store and whatever the
    store and the earlier operations of the batch hold for the key. *)
Theorem X6_Get_reads_own_writes
    (ru : RocksRecoveryUnit) (w : World) (cf : ColumnFamilyHandle) (key value : string) :
  ru_wf ru ->
  (exists ru1, run (writeBatch_Put cf key value) (ru, w) = Ok tt (ru1, w) /\
               run (Get cf key) (ru1, w) = Ok (StatusOK, Some value) (ru1, w)) /\
  (exists ru1, run (writeBatch_Delete cf key) (ru, w) = Ok tt (ru1, w) /\
               run (Get cf key) (ru1, w) = Ok (StatusNotFound, None) (ru1, w)).
Proof.
  intros Hwf. pose proof (default_batch_wf ru Hwf) as Hwf'. split.
  - rewrite writeBatch_Put_run. eexists; split; [reflexivity|].
    rewrite Get_run by (by apply wbwi_add_wf).
    unfold wbwi_Put. rewrite buffered_after_add. cbn [w_cf w_key].
    by rewrite (proj2 (same_slot_spec cf key cf key)).
  - rewrite writeBatch_Delete_run. eexists; split; [reflexivity|].
    rewrite Get_run by (by apply wbwi_add_wf).
    unfold wbwi_Delete. rewrite buffered_after_add. cbn [w_cf w_key].
    by rewrite (proj2 (same_slot_spec cf key cf key)).
Qed.

Lemma X6_Get_reads_own_writes_witness :
  let ru := fst (final (run (exec_all [OpPut 1 "k" "old"; OpDelete 1 "j"])
                            (RocksRecoveryUnit_new true, empty_world))) in
  ru_wf ru /\
  exists ru1, run (writeBatch_Put 1 "j" "new") (ru, empty_world) = Ok tt (ru1, empty_world) /\
              run (Get 1 "j") (ru1, empty_world) = Ok (StatusOK, Some "new") (ru1, empty_world).
Proof.
  intros ru. split; [vm_compute; reflexivity|].
  apply (proj1 (X6_Get_reads_own_writes ru empty_world 1 "j" "new"
                  ltac:(vm_compute; reflexivity))).
Defined.

(** X7: a buffered put or delete on one key does not change what [Get]
    returns for any other key, or for the same key in another column
    family. *)
Theorem X7_write_leaves_other_keys_alone
    (ru : RocksRecoveryUnit) (w : World) (cf cf' : ColumnFamilyHandle)
    (key key' value : string) :
  ru_wf ru ->
  (cf', key') <> (cf, key) ->
  (forall ru1, run (writeBatch_Put cf key value) (ru, w) = Ok tt (ru1, w) ->
     result_of (run (Get cf' key') (ru1, w)) = result_of (run (Get cf' key') (ru, w))) /\
  (forall ru1, run (writeBatch_Delete cf key) (ru, w) = Ok tt (ru1, w) ->
     result_of (run (Get cf' key') (ru1, w)) = result_of (run (Get cf' key') (ru, w))).
Proof.
  intros Hwf Hne. pose proof (default_batch_wf ru Hwf) as Hwf'.
  assert (same_slot cf' key' cf key = false) as Hslot.
  { destruct (same_slot cf' key' cf key) eqn:E; [|done].
    apply same_slot_spec in E as [-> ->]. done. }
  assert (forall e, w_cf e = cf -> w_key e = key ->
            result_of (run (Get cf' key')
              (set_writeBatch (Some (wbwi_add e (default wbwi_new (_writeBatch ru)))) ru, w)) =
            result_of (run (Get cf' key') (ru, w))) as Hadd.
  { intros e Hcf Hk.
    rewrite Get_run by (by apply wbwi_add_wf). rewrite (Get_run ru) by done.
    rewrite buffered_after_add, Hcf, Hk, Hslot.
    destruct (buffered ru cf' key'); [reflexivity|].
    rewrite !fall_through_run. cbn [set_writeBatch _snapshot].
    by destruct (_snapshot ru). }
  split; intros ru1.
  - rewrite writeBatch_Put_run. intros [= <-]. by apply Hadd.
  - rewrite writeBatch_Delete_run. intros [= <-]. by apply Hadd.
Qed.

Lemma X7_write_leaves_other_keys_alone_witness :
  let ru := fst (final (run (exec_all [OpPut 1 "k" "old"])
                            (RocksRecoveryUnit_new true, empty_world))) in
  ru_wf ru /\ (1%nat, "k") <> (1%nat, "j") /\
  forall ru1, run (writeBatch_Put 1 "j" "new") (ru, empty_world) = Ok tt (ru1, empty_world) ->
    result_of (run (Get 1 "k") (ru1, empty_world)) = Some (StatusOK, Some "old").
Proof.
  intros ru. split; [vm_compute; reflexivity|]. split; [discriminate|].
  intros ru1 Hrun.
  rewrite (proj1 (X7_write_leaves_other_keys_alone ru empty_world 1 1 "j" "k" "new"
                    ltac:(vm_compute; reflexivity) ltac:(discriminate)) ru1 Hrun).
  vm_compute. reflexivity.
Defined.

(** *** What a commit leaves in the store *)

(** The counter flush adds operations on the default column family alone. *)
Lemma flush_other_column_family l acc cf key :
  cf <> 0%nat ->
  last_op cf key (wb_batch (flush l acc).1) = last_op cf key (wb_batch acc.1).
Proof.
  intros Hcf. revert acc; induction l as [|p l IH]; intros acc; [reflexivity|].
  rewrite flush_cons, IH. unfold flush_step, wbwi_Put, wbwi_add. cbn [fst wb_batch].
  rewrite last_op_snoc. cbn [w_cf w_key].
  destruct (same_slot cf key 0 p.1) eqn:E; [|reflexivity].
  apply same_slot_spec in E as [-> _]. done.
Qed.

Lemma commitUnitOfWork_db_lookup ru w wb cf key :
  _depth ru <= 1 -> _writeBatch ru = Some wb -> db_write_fails (w_db w) = false ->
  cf <> 0%nat \/ _deltaCounters ru = ∅ ->
  exists s',
    run commitUnitOfWork (ru, w) = Ok tt s' /\
    _writeBatch (fst s') = None /\ _snapshot (fst s') = None /\
    db_data (w_db (snd s')) !! (cf, key) =
      match last_op cf key (wb_batch wb) with
      | Some e => written_value e
      | None => db_data (w_db w) !! (cf, key)
      end.
Proof.
  intros Hd Hwb Hf Hkey.
  rewrite (commitUnitOfWork_outermost _ _ Hd), Hwb.
  rewrite bool_decide_eq_true_2 by eauto.
  rewrite (_commit_run ru w wb Hwb). cbv zeta.
  pose proof (flush_Count (map_to_list (_deltaCounters ru)) (wb, w_counters w)) as Hn.
  assert (last_op cf key (wb_batch (flush (map_to_list (_deltaCounters ru))
                                      (wb, w_counters w)).1) =
          last_op cf key (wb_batch wb)) as Hlast.
  { destruct Hkey as [Hcf|Hdc].
    - by rewrite flush_other_column_family.
    - by rewrite Hdc, map_to_list_empty. }
  set (acc := flush (map_to_list (_deltaCounters ru)) (wb, w_counters w)) in *.
  destruct (Count acc.1 =? 0)%nat eqn:Hz.
  - eexists; split; [reflexivity|]. cbn [fst snd]. rewrite release_db_data.
    cbn [set_snapshot set_changes set_writeBatch set_deltaCounters _writeBatch _snapshot
           add_trace w_db].
    split; [done|]. split; [done|].
    apply Nat.eqb_eq in Hz. cbn [fst] in Hn.
    assert (wb_batch wb = []) as ->.
    { apply length_zero_iff_nil. unfold Count in *. lia. }
    reflexivity.
  - rewrite Hf. eexists; split; [reflexivity|]. cbn [fst snd]. rewrite release_db_data.
    cbn [set_snapshot set_changes set_writeBatch set_deltaCounters _writeBatch _snapshot
           add_trace w_db].
    split; [done|]. split; [done|].
    unfold DB_Write. rewrite Hf. cbn [snd db_data].
    rewrite apply_batch_lookup, Hlast. unfold written_value. reflexivity.
Qed.

(** X8: a commit that is carried out makes the buffered writes the store's
    data, last writer per key: under every key the batch wrote, the store
    holds the value of the latest put, or nothing if the latest operation is
    a delete; every other key keeps what the store had.  (Stated for keys the
    counter flush does not write: outside the default column family, or with
    no counter delta pending.) *)
Theorem X8_commit_stores_latest_buffered_writes
    (ru : RocksRecoveryUnit) (w : World) (wb : WriteBatchWithIndex)
    (cf : ColumnFamilyHandle) (key : string) :
  _depth ru <= 1 -> _writeBatch ru = Some wb -> db_write_fails (w_db w) = false ->
  cf <> 0%nat \/ _deltaCounters ru = ∅ ->
  exists s',
    run commitUnitOfWork (ru, w) = Ok tt s' /\
    db_data (w_db (snd s')) !! (cf, key) =
      match buffered ru cf key with
      | Some e => written_value e
      | None => db_data (w_db w) !! (cf, key)
      end.
Proof.
  intros Hd Hwb Hf Hkey.
  destruct (commitUnitOfWork_db_lookup ru w wb cf key Hd Hwb Hf Hkey)
    as (s' & Hrun & _ & _ & Hdata).
  exists s'. split; [exact Hrun|]. unfold buffered. by rewrite Hwb.
Qed.

Lemma X8_commit_stores_latest_buffered_writes_witness :
  let ru := fst (final (run (exec_all [OpBeginUnitOfWork; OpPut 1 "k" "v1"; OpPut 1 "j" "x";
                                       OpPut 1 "k" "v2"; OpDelete 1 "j"])
                            (RocksRecoveryUnit_new true, empty_world))) in
  let w := mkWorld (mkDB {[ (1%nat, "j") := "before" ]} 0 [] false) ∅ [] in
  exists s',
    run commitUnitOfWork (ru, w) = Ok tt s' /\
    db_data (w_db (snd s')) !! (1%nat, "k") = Some "v2" /\
    db_data (w_db (snd s')) !! (1%nat, "j") = None.
Proof.
  intros ru w.
  destruct (_writeBatch ru) as [wb|] eqn:Hwb; [|vm_compute in Hwb; discriminate].
  destruct (X8_commit_stores_latest_buffered_writes ru w wb 1 "k")
    as (s1 & Hrun1 & Hk); [vm_compute; congruence|exact Hwb|reflexivity|left; discriminate|].
  destruct (X8_commit_stores_latest_buffered_writes ru w wb 1 "j")
    as (s2 & Hrun2 & Hj); [vm_compute; congruence|exact Hwb|reflexivity|left; discriminate|].
  rewrite Hrun1 in Hrun2. injection Hrun2 as <-.
  exists s1. split; [exact Hrun1|]. split; [exact Hk|exact Hj].
Defined.

(** The counter flush writes the pending counter keys and no other. *)
Lemma flush_other_key l acc key :
  (forall k c, (k, c) ∈ l -> k <> key) ->
  last_op 0 key (wb_batch (flush l acc).1) = last_op 0 key (wb_batch acc.1).
Proof.
  revert acc; induction l as [|[k c] l IH]; intros acc Hl; [reflexivity|].
  rewrite flush_cons, IH by (intros k' c' Hin; apply (Hl k' c'); by right).
  unfold flush_step, wbwi_Put, wbwi_add. cbn [fst snd wb_batch].
  rewrite last_op_snoc. cbn [w_cf w_key].
  destruct (same_slot 0 key 0 k) eqn:E; [|reflexivity].
  apply same_slot_spec in E as [_ ->]. by destruct (Hl k c); [left|].
Qed.

Lemma commitUnitOfWork_db_lookup_key ru w wb cf key :
  _depth ru <= 1 -> _writeBatch ru = Some wb -> db_write_fails (w_db w) = false ->
  cf <> 0%nat \/ _deltaCounters ru !! key = None ->
  exists s',
    run commitUnitOfWork (ru, w) = Ok tt s' /\
    _writeBatch (fst s') = None /\ _snapshot (fst s') = None /\
    db_data (w_db (snd s')) !! (cf, key) =
      match last_op cf key (wb_batch wb) with
      | Some e => written_value e
      | None => db_data (w_db w) !! (cf, key)
      end.
Proof.
  intros Hd Hwb Hf Hkey.
  rewrite (commitUnitOfWork_outermost _ _ Hd), Hwb.
  rewrite bool_decide_eq_true_2 by eauto.
  rewrite (_commit_run ru w wb Hwb). cbv zeta.
  pose proof (flush_Count (map_to_list (_deltaCounters ru)) (wb, w_counters w)) as Hn.
  assert (last_op cf key (wb_batch (flush (map_to_list (_deltaCounters ru))
                                      (wb, w_counters w)).1) =
          last_op cf key (wb_batch wb)) as Hlast.
  { destruct (decide (cf = 0%nat)) as [->|Hcf]; [|by rewrite flush_other_column_family].
    destruct Hkey as [Hcf|Hnone]; [done|].
    apply flush_other_key. intros k c Hin ->.
    apply elem_of_map_to_list in Hin. congruence. }
  set (acc := flush (map_to_list (_deltaCounters ru)) (wb, w_counters w)) in *.
  destruct (Count acc.1 =? 0)%nat eqn:Hz.
  - eexists; split; [reflexivity|]. cbn [fst snd]. rewrite release_db_data.
    cbn [set_snapshot set_changes set_writeBatch set_deltaCounters _writeBatch _snapshot
           add_trace w_db].
    split; [done|]. split; [done|].
    apply Nat.eqb_eq in Hz. cbn [fst] in Hn.
    assert (wb_batch wb = []) as ->.
    { apply length_zero_iff_nil. unfold Count in *. lia. }
    reflexivity.
  - rewrite Hf. eexists; split; [reflexivity|]. cbn [fst snd]. rewrite release_db_data.
    cbn [set_snapshot set_changes set_writeBatch set_deltaCounters _writeBatch _snapshot
           add_trace w_db].
    split; [done|]. split; [done|].
    unfold DB_Write. rewrite Hf. cbn [snd db_data].
    rewrite apply_batch_lookup, Hlast. unfold written_value. reflexivity.
Qed.

(** X9: a committed write is what the unit reads next.  A put on a key that
    is not a counter key with a delta pending (the flush of the commit writes
    those keys, in the default column family, after the batch), followed by a
    commit at depth 1 or below with a store that accepts the batch, leaves
    the unit without batch and snapshot, so the next [Get] on the key takes a
    new snapshot of the store and returns the value put. *)
Theorem X9_committed_put_is_read_back
    (ru : RocksRecoveryUnit) (w : World) (cf : ColumnFamilyHandle) (key value : string) :
  _depth ru <= 1 -> db_write_fails (w_db w) = false ->
  cf <> 0%nat \/ _deltaCounters ru !! key = None ->
  exists s1 s2,
    run (writeBatch_Put cf key value;; commitUnitOfWork) (ru, w) = Ok tt s1 /\
    run (Get cf key) s1 = Ok (StatusOK, Some value) s2 /\
    events_of (Get cf key) s1 =
      [EvRecordSnapshotId; EvGetSnapshot (db_next_snapshot (w_db (snd s1)));
       EvGet (Some (db_next_snapshot (w_db (snd s1)))) cf key] /\
    db_data (w_db (snd s1)) !! (cf, key) = Some value.
Proof.
  intros Hd Hf Hkey. rewrite run_bind, writeBatch_Put_run.
  set (wb := wbwi_Put cf key value (default wbwi_new (_writeBatch ru))).
  destruct (commitUnitOfWork_db_lookup_key (set_writeBatch (Some wb) ru) w wb cf key)
    as ([ru1 w1] & Hrun & Hb & Hs & Hdata);
    [by destruct ru|by destruct ru|done|by destruct ru|].
  cbn [fst snd] in *.
  assert (db_data (w_db w1) !! (cf, key) = Some value) as Hv.
  { etrans; [exact Hdata|]. subst wb. unfold wbwi_Put, wbwi_add. cbn [wb_batch].
    rewrite last_op_snoc. cbn [w_cf w_key].
    by rewrite (proj2 (same_slot_spec cf key cf key)). }
  assert (run (Get cf key) (ru1, w1) =
          Ok (StatusOK, Some value)
             (fst (acquire ru1 w1),
              add_trace [EvGet (Some (db_next_snapshot (w_db w1))) cf key]
                        (snd (acquire ru1 w1)))) as Hget.
  { rewrite Get_run by (unfold ru_wf; by rewrite Hb).
    unfold buffered. rewrite Hb. rewrite fall_through_run, Hs, Hv. reflexivity. }
  exists (ru1, w1). eexists. split; [exact Hrun|]. split; [exact Hget|].
  split; [|exact Hv].
  apply events_of_intro. rewrite Hget. unfold acquire, add_trace. cbn.
  by rewrite <- app_assoc.
Qed.

Lemma X9_committed_put_is_read_back_witness :
  let ru := fst (final (run (exec_all [OpBeginUnitOfWork; OpIncrementCounter "x" 7 3])
                            (RocksRecoveryUnit_new true, empty_world))) in
  let w := mkWorld (mkDB {[ (0%nat, "k") := "before" ]} 0 [] false) ∅ [] in
  exists s1 s2,
    run (writeBatch_Put 0 "k" "after";; commitUnitOfWork) (ru, w) = Ok tt s1 /\
    run (Get 0 "k") s1 = Ok (StatusOK, Some "after") s2 /\
    db_data (w_db (snd s1)) !! (0%nat, "k") = Some "after".
Proof.
  intros ru w.
  destruct (X9_committed_put_is_read_back ru w 0 "k" "after")
    as (s1 & s2 & H1 & H2 & _ & H3).
  - vm_compute. congruence.
  - reflexivity.
  - right. vm_compute. reflexivity.
  - exists s1, s2. split; [exact H1|]. split; [exact H2|exact H3].
Defined.

(** X10: the store rejecting the batch is fatal.  The commit dies right after
    the failed [Write] and the log line: the conflict tracker's [commit()] is
    not called, no change is committed, the snapshot is not released and the
    changes stay registered; the store's data is untouched, while the shared
    counters have already received the pending deltas. *)
Theorem X10_rejected_batch_is_fatal
    (ru : RocksRecoveryUnit) (w : World) (wb : WriteBatchWithIndex) :
  _depth ru <= 1 -> _writeBatch ru = Some wb ->
  Count wb <> 0%nat \/ _deltaCounters ru <> ∅ ->
  db_write_fails (w_db w) = true ->
  let acc := flush (map_to_list (_deltaCounters ru)) (wb, w_counters w) in
  exists s',
    run commitUnitOfWork (ru, w) = Fatal s' /\
    events_of commitUnitOfWork (ru, w) =
      [EvWrite WriteOptions_default (wb_batch acc.1) StatusIOError; EvLog "uh oh"] /\
    db_data (w_db (snd s')) = db_data (w_db w) /\
    w_counters (snd s') = acc.2 /\
    _changes (fst s') = _changes ru /\ _snapshot (fst s') = _snapshot ru /\
    _deltaCounters (fst s') = _deltaCounters ru.
Proof.
  intros Hd Hwb Hp Hf acc.
  assert (run commitUnitOfWork (ru, w) =
          Fatal (set_writeBatch (Some acc.1) ru,
                 mkWorld (w_db w) acc.2
                   (w_trace w ++ [EvWrite WriteOptions_default (wb_batch acc.1) StatusIOError;
                                  EvLog "uh oh"]))) as Hrun.
  { rewrite (commitUnitOfWork_outermost _ _ Hd), Hwb.
    rewrite bool_decide_eq_true_2 by eauto.
    rewrite (_commit_run ru w wb Hwb). cbv zeta. fold acc.
    pose proof (flush_Count (map_to_list (_deltaCounters ru)) (wb, w_counters w)) as Hn.
    fold acc in Hn. cbn [fst] in Hn.
    destruct (Count acc.1 =? 0)%nat eqn:Hz; [|by rewrite Hf].
    apply Nat.eqb_eq in Hz. exfalso. destruct Hp as [Hp|Hp]; [lia|].
    apply Hp. apply map_to_list_empty_iff, length_zero_iff_nil. lia. }
  eexists. split; [exact Hrun|]. split.
  - apply events_of_intro. by rewrite Hrun.
  - cbn. by destruct ru.
Qed.

Lemma X10_rejected_batch_is_fatal_witness :
  let ru := fst (final (run (exec_all [OpBeginUnitOfWork; OpPut 1 "k" "v";
                                       OpRegisterChange 4; OpGet 1 "j"])
                            (RocksRecoveryUnit_new true, empty_world))) in
  let w := mkWorld (mkDB ∅ 1 [0%nat] true) ∅ [] in
  exists s',
    run commitUnitOfWork (ru, w) = Fatal s' /\
    events_of commitUnitOfWork (ru, w) =
      [EvWrite WriteOptions_default [mkEntry kPutRecord 1 "k" "v"] StatusIOError;
       EvLog "uh oh"] /\
    _changes (fst s') = [4%nat].
Proof.
  intros ru w.
  destruct (X10_rejected_batch_is_fatal ru w (wbwi_Put 1 "k" "v" wbwi_new))
    as (s' & Hrun & Hev & _ & _ & Hch & _).
  - vm_compute. congruence.
  - vm_compute. reflexivity.
  - left. vm_compute. congruence.
  - reflexivity.
  - exists s'. split; [exact Hrun|]. split; [exact Hev|exact Hch].
Defined.

(** *** Nesting and bookkeeping *)

Lemma begin_n_run n ru w :
  run (repeat_m n beginUnitOfWork) (ru, w) =
  Ok tt (set_depth (_depth ru + Z.of_nat n) ru, w).
Proof.
  revert ru; induction n as [|n IH]; intros ru; cbn [repeat_m].
  - step. rewrite Z.add_0_r. by destruct ru.
  - rewrite run_bind. unfold beginUnitOfWork at 1. step. rewrite IH.
    replace (_depth ru + Z.of_nat (S n)) with (_depth ru + 1 + Z.of_nat n) by lia.
    by destruct ru.
Qed.

Lemma end_n_run n ru w :
  Z.of_nat n < _depth ru ->
  run (repeat_m n endUnitOfWork) (ru, w) =
  Ok tt (set_depth (_depth ru - Z.of_nat n) ru, w).
Proof.
  revert ru; induction n as [|n IH]; intros ru Hd; cbn [repeat_m].
  - step. rewrite Z.sub_0_r. by destruct ru.
  - rewrite run_bind. unfold endUnitOfWork at 1. step. cbn [set_depth _depth].
    destruct (_depth ru - 1 =? 0) eqn:Hz; [apply Z.eqb_eq in Hz; lia|]. step.
    rewrite IH by (destruct ru; cbn [set_depth _depth] in *; lia).
    replace (_depth ru - Z.of_nat (S n)) with (_depth ru - 1 - Z.of_nat n) by lia.
    by destruct ru.
Qed.

(** X11: a nested scope changes nothing.  Inside an open unit of work, any
    number of [beginUnitOfWork] calls, a [commitUnitOfWork], and as many
    [endUnitOfWork] calls return with the recovery unit and the world exactly
    as they were: the inner commit is not carried out and no inner end
    aborts.  The same holds without the inner commit. *)
Theorem X11_nested_scope_is_identity (n : nat) (ru : RocksRecoveryUnit) (w : World) :
  1 <= _depth ru -> n <> 0%nat ->
  run (repeat_m n beginUnitOfWork;; commitUnitOfWork;; repeat_m n endUnitOfWork) (ru, w)
    = Ok tt (ru, w) /\
  run (repeat_m n beginUnitOfWork;; repeat_m n endUnitOfWork) (ru, w) = Ok tt (ru, w).
Proof.
  intros Hd Hn.
  assert (run (repeat_m n endUnitOfWork) (set_depth (_depth ru + Z.of_nat n) ru, w)
          = Ok tt (ru, w)) as Hend.
  { rewrite end_n_run by (destruct ru; cbn [set_depth _depth] in *; lia).
    destruct ru; cbn [set_depth _depth] in *.
    by replace (_depth0 + Z.of_nat n - Z.of_nat n) with _depth0 by lia. }
  split.
  - rewrite run_bind, begin_n_run, run_bind.
    rewrite commitUnitOfWork_nested by (cbn [set_depth _depth]; lia).
    exact Hend.
  - rewrite run_bind, begin_n_run. exact Hend.
Qed.

Lemma X11_nested_scope_is_identity_witness :
  let s := final (run (exec_all [OpBeginUnitOfWork; OpPut 1 "k" "v";
                                 OpIncrementCounter "x" 7 3; OpRegisterChange 4])
                      (RocksRecoveryUnit_new true, empty_world)) in
  1 <= _depth (fst s) /\
  run (repeat_m 3 beginUnitOfWork;; commitUnitOfWork;; repeat_m 3 endUnitOfWork) s = Ok tt s.
Proof.
  intros s. split; [vm_compute; congruence|].
  destruct s as [ru w] eqn:Hs.
  apply (proj1 (X11_nested_scope_is_identity 3 ru w
                  ltac:(apply (f_equal fst) in Hs; cbn [fst] in Hs; rewrite <- Hs;
                        vm_compute; congruence)
                  ltac:(discriminate))).
Defined.

(** X12: [commitAndRestart] requires depth 0.  At any other depth it dies on
    the invariant with nothing done; at depth 0 it is the commit, carried
    out: with a store that accepts the batch it returns with nothing
    buffered, no pending delta, no snapshot, no registered change, and the
    depth still 0. *)
Theorem X12_commitAndRestart_requires_depth_zero (ru : RocksRecoveryUnit) (w : World) :
  (_depth ru <> 0 -> run commitAndRestart (ru, w) = Fatal (ru, w)) /\
  (_depth ru = 0 -> db_write_fails (w_db w) = false ->
   exists s', run commitAndRestart (ru, w) = Ok tt s' /\
              run commitAndRestart (ru, w) = run commitUnitOfWork (ru, w) /\
              _writeBatch (fst s') = None /\ _snapshot (fst s') = None /\
              _changes (fst s') = [] /\ _depth (fst s') = 0 /\
              (is_Some (_writeBatch ru) -> _deltaCounters (fst s') = ∅)).
Proof.
  split.
  - intros Hd. unfold commitAndRestart. step.
    apply Z.eqb_neq in Hd. rewrite Hd. by step.
  - intros Hd Hf.
    assert (run commitAndRestart (ru, w) = run commitUnitOfWork (ru, w)) as E.
    { unfold commitAndRestart. step. rewrite Hd. cbn. by step. }
    destruct (commitUnitOfWork_ok ru w ltac:(lia) Hf) as (s' & Hrun & Hch & Hb & Hs & Hdc).
    destruct (commitUnitOfWork_post ru w s' ltac:(lia) Hrun) as (_ & _ & _ & Hd' & _).
    exists s'. rewrite E. repeat split; try done. congruence.
Qed.

Lemma X12_commitAndRestart_requires_depth_zero_witness :
  let ru1 := set_depth 1 (RocksRecoveryUnit_new true) in
  let ru0 := fst (final (run (writeBatch_Put 1 "k" "v") (RocksRecoveryUnit_new true, empty_world))) in
  run commitAndRestart (ru1, empty_world) = Fatal (ru1, empty_world) /\
  exists s', run commitAndRestart (ru0, empty_world) = Ok tt s' /\ _writeBatch (fst s') = None.
Proof.
  intros ru1 ru0. split.
  - apply (proj1 (X12_commitAndRestart_requires_depth_zero ru1 empty_world)).
    vm_compute. congruence.
  - destruct (proj2 (X12_commitAndRestart_requires_depth_zero ru0 empty_world)
                ltac:(vm_compute; reflexivity) ltac:(reflexivity))
      as (s' & Hrun & _ & Hb & _).
    exists s'. split; [exact Hrun|exact Hb].
Defined.

Lemma commitUnitOfWork_frame ru w :
  _durable (fst (final (run commitUnitOfWork (ru, w)))) = _durable ru /\
  _oplogReadTill (fst (final (run commitUnitOfWork (ru, w)))) = _oplogReadTill ru /\
  _depth (fst (final (run commitUnitOfWork (ru, w)))) = _depth ru.
Proof.
  destruct (Z_le_gt_dec (_depth ru) 1) as [Hd|Hd].
  - rewrite (commitUnitOfWork_outermost _ _ Hd).
    destruct (_writeBatch ru) as [wb|] eqn:Hwb.
    + rewrite bool_decide_eq_true_2 by eauto.
      rewrite (_commit_run ru w wb Hwb). cbv zeta.
      by destruct (Count _ =? 0)%nat; [|destruct (db_write_fails (w_db w))].
    + rewrite bool_decide_eq_false_2 by (intros [? ?]; discriminate).
      by rewrite run_skip.
  - by rewrite commitUnitOfWork_nested by lia.
Qed.

(** X13: the bookkeeping fields.  No operation changes the durable flag;
    only [setOplogReadTill] changes the oplog marker; only [beginUnitOfWork]
    and [endUnitOfWork] change the depth, by one, so a commit or an abort
    leaves the depth to the caller's [endUnitOfWork]. *)
Theorem X13_durable_oplog_marker_and_depth
    (op : Op) (ru : RocksRecoveryUnit) (w : World) :
  _durable (fst (final (run (exec op) (ru, w)))) = _durable ru /\
  _oplogReadTill (fst (final (run (exec op) (ru, w)))) =
    match op with
    | OpSetOplogReadTill record => record
    | _ => _oplogReadTill ru
    end /\
  _depth (fst (final (run (exec op) (ru, w)))) =
    match op with
    | OpBeginUnitOfWork => _depth ru + 1
    | OpEndUnitOfWork => _depth ru - 1
    | _ => _depth ru
    end.
Proof.
  pose proof (commitUnitOfWork_frame ru w) as Hcommit.
  destruct op; try exact Hcommit; exec_unfold; exec_crush; try exact Hcommit;
    unfold acquire; by cbn.
Qed.

(** X14: reads leave the unit's pending work alone.  [Get], [NewIterator],
    [snapshot] and [getDeltaCounter] change neither the write batch, nor the
    counter deltas, nor the registered changes, nor the store's data, nor the
    shared counters; all they may change is the snapshot held, from none to
    the one just acquired. *)
Theorem X14_reads_change_only_the_snapshot
    (op : Op) (ru : RocksRecoveryUnit) (w : World) :
  match op with
  | OpGet _ _ | OpNewIterator _ | OpSnapshot | OpGetDeltaCounter _ =>
      let s' := final (run (exec op) (ru, w)) in
      _writeBatch (fst s') = _writeBatch ru /\
      _deltaCounters (fst s') = _deltaCounters ru /\
      _changes (fst s') = _changes ru /\
      db_data (w_db (snd s')) = db_data (w_db w) /\
      w_counters (snd s') = w_counters w /\
      (_snapshot (fst s') = _snapshot ru \/
       _snapshot ru = None /\
       _snapshot (fst s') = Some (mkSnapshot (db_next_snapshot (w_db w)) (db_data (w_db w))))
  | _ => True
  end.
Proof.
  destruct op; try exact I; cbv zeta; exec_unfold; exec_crush; unfold acquire; cbn;
    repeat split; auto.
Qed.
